(** * torchdynamo/testing.py: test-harness utilities

    A shallow embedding of [src/torchdynamo/testing.py] and the properties
    of its functions: [clone_me], [reduce_to_scalar_loss], [same],
    [debug_insert_nops], [CompileCounter] and [format_speedup].

    Python values are an inductive type, exceptions are an explicit error
    monad, and the two libraries the file calls into ([torch] and the
    package's own [bytecode_transformation] / [guards] modules, neither of
    which is part of the file) are interfaces: a type class each, with the
    operations the file uses and nothing assumed about what they compute.
    [print] only writes to standard output and is left out; the expressions
    it prints are kept, since evaluating them can raise. *)

From Stdlib Require Import ZArith List String Ascii Bool Lia.
From Stdlib Require Import Floats.SpecFloat DecimalString.
From Stdlib Require Import Sorting.Permutation.
Import ListNotations.

Local Open Scope string_scope.
Local Open Scope Z_scope.

(** ** The Python runtime the file relies on *)

Module Py.

(** Exceptions the file raises itself or lets through. *)
Inductive exn : Type :=
| AssertionError
| RuntimeError
| NotImplementedError
| AttributeError
| KeyError
| TypeError.

(** A call either returns or raises. *)
Inductive result (A : Type) : Type :=
| Ok (a : A)
| Raise (e : exn).

Arguments Ok {A} a.
Arguments Raise {A} e.

Definition bind {A B : Type} (r : result A) (k : A -> result B) : result B :=
  match r with
  | Ok a => k a
  | Raise e => Raise e
  end.

(** [assert c]. *)
Definition assert (c : bool) : result unit :=
  if c then Ok tt else Raise AssertionError.

(** A list comprehension [[f x for x in xs]]: left to right, the first
    exception ends it. *)
Fixpoint mapM {A B : Type} (f : A -> result B) (xs : list A) : result (list B) :=
  match xs with
  | [] => Ok []
  | x :: xs' =>
      bind (f x) (fun y => bind (mapM f xs') (fun ys => Ok (y :: ys)))
  end.

(** Python's [float] is an IEEE 754 binary64 number. *)
Definition float : Type := spec_float.

(** [x == y] and [x > y] on floats: false as soon as one side is a NaN. *)
Definition float_eq (x y : float) : bool := SFeqb x y.
Definition float_gt (x y : float) : bool := SFltb y x.

(** [n == f] for an [int] and a [float] compares the exact values. *)
Definition int_eq_float (n : Z) (f : float) : bool :=
  match f with
  | S754_zero _ => n =? 0
  | S754_infinity _ => false
  | S754_nan => false
  | S754_finite s m e =>
      let v := if s then Z.neg m else Z.pos m in
      if 0 <=? e then n =? v * 2 ^ e
      else (v mod 2 ^ (- e) =? 0) && (n =? v / 2 ^ (- e))
  end.

(** [needle in hay] on strings. *)
Fixpoint str_contains (needle hay : string) : bool :=
  String.prefix needle hay ||
  match hay with
  | EmptyString => false
  | String _ hay' => str_contains needle hay'
  end.

(** [s.endswith(suffix)]. *)
Fixpoint ends_with (suffix s : string) : bool :=
  String.eqb suffix s ||
  match s with
  | EmptyString => false
  | String _ s' => ends_with suffix s'
  end.

(** The last character of a string. *)
Fixpoint last_char (s : string) : option ascii :=
  match s with
  | EmptyString => None
  | String c EmptyString => Some c
  | String _ s' => last_char s'
  end.

(** [x in names] for a tuple of strings. *)
Definition str_in (x : string) (names : list string) : bool :=
  existsb (String.eqb x) names.

End Py.

Export Py.

Declare Scope py_scope.
Delimit Scope py_scope with py.
Notation "x <- c ;; k" := (bind c (fun x => k))
  (at level 61, c at next level, right associativity) : py_scope.
Notation "c ;;; k" := (bind c (fun _ => k))
  (at level 61, right associativity) : py_scope.
Local Open Scope py_scope.

(** ** The part of [torch] the file uses

    Operations that can fail inside the library (shapes that do not
    broadcast, dtypes or devices that do not match, the truth value of a
    tensor with several elements) return a [result]. *)

Class Torch : Type := {
  Tensor : Type;
  Device : Type;
  (** [d1 == d2] on [torch.device]. *)
  device_eq : Device -> Device -> bool;
  (** [torch.allclose(a, b, atol=atol, rtol=rtol)]. *)
  allclose : Tensor -> Tensor -> float -> float -> result bool;
  (** [t.flatten()]. *)
  flatten : Tensor -> Tensor;
  (** [t.to(torch.float32)]. *)
  to_float32 : Tensor -> Tensor;
  (** [torch.nn.CosineSimilarity(dim=dim, eps=eps)(a, b)]. *)
  cosine_similarity : Z -> float -> Tensor -> Tensor -> result Tensor;
  (** [a - b]. *)
  tensor_sub : Tensor -> Tensor -> result Tensor;
  (** [torch.abs(t)]. *)
  tensor_abs : Tensor -> Tensor;
  (** [torch.sort(t, descending=True)[0]]. *)
  sort_descending : Tensor -> Tensor;
  (** [t[:n]]. *)
  tensor_take : Z -> Tensor -> Tensor;
  (** [bool(t)]. *)
  tensor_bool : Tensor -> result bool;
  (** [n == t] for an [int] or [bool] [n]: the element-wise comparison. *)
  tensor_eq_int : Z -> Tensor -> result Tensor;
  (** [x == t] for a [float] [x]. *)
  tensor_eq_float : float -> Tensor -> result Tensor;
  (** [t.sum()]. *)
  tensor_sum : Tensor -> Tensor;
  (** [n + t] for an [int] [n]. *)
  tensor_radd_int : Z -> Tensor -> result Tensor;
  (** [t + n] for an [int] [n]. *)
  tensor_add_int : Tensor -> Z -> result Tensor;
  (** [a + b]. *)
  tensor_add : Tensor -> Tensor -> result Tensor;
  (** [t.detach()], [t.clone()], [t.requires_grad], [t.requires_grad_(b)]. *)
  detach : Tensor -> Tensor;
  clone : Tensor -> Tensor;
  requires_grad : Tensor -> bool;
  requires_grad_ : Tensor -> bool -> Tensor
}.

(** ** Python values *)

(** The sequence types [same] puts in its first branch. [torch.Size] is a
    subclass of [tuple]; [torch.nn.ParameterList] is a module, neither a
    [list] nor a [tuple]. *)
Inductive seq_kind : Type := KList | KTuple | KParameterList | KSize.

(** [isinstance(x, (list, tuple))] and [isinstance(x, tuple)]. *)
Definition is_list_or_tuple (k : seq_kind) : bool :=
  match k with
  | KList | KTuple | KSize => true
  | KParameterList => false
  end.

Definition is_tuple (k : seq_kind) : bool :=
  match k with
  | KTuple | KSize => true
  | KList | KParameterList => false
  end.

(** A class: [type(x) is type(y)] compares the class, [type(x).__name__]
    reads its name, and two classes of different modules can share one. *)
Record pyclass : Type := {
  cls_module : string;
  cls_name : string
}.

Definition pyclass_is (c1 c2 : pyclass) : bool :=
  String.eqb (cls_module c1) (cls_module c2) &&
  String.eqb (cls_name c1) (cls_name c2).

Section Values.

Context {T : Torch}.

#[local] Unset Elimination Schemes.

(** A [dict] (or an instance of a subclass of it, such as an ordered
    dictionary with named fields) keeps its items in insertion order and
    its keys apart; an instance of any other class is its class and its
    [__dict__]. *)
Inductive value : Type :=
| VNone
| VBool (b : bool)
| VInt (n : Z)
| VFloat (f : float)
| VDevice (d : Device)
| VTensor (t : Tensor)
| VSeq (k : seq_kind) (xs : list value)
| VDict (c : pyclass) (attrs : list (string * value)) (items : list (string * value))
| VObj (c : pyclass) (attrs : list (string * value)).

#[local] Set Elimination Schemes.

(** [type(v)]. *)
Definition builtin (name : string) : pyclass :=
  {| cls_module := "builtins"; cls_name := name |}.

Definition torch_class (name : string) : pyclass :=
  {| cls_module := "torch"; cls_name := name |}.

Definition class_of (v : value) : pyclass :=
  match v with
  | VNone => builtin "NoneType"
  | VBool _ => builtin "bool"
  | VInt _ => builtin "int"
  | VFloat _ => builtin "float"
  | VDevice _ => torch_class "device"
  | VTensor _ => torch_class "Tensor"
  | VSeq KList _ => builtin "list"
  | VSeq KTuple _ => builtin "tuple"
  | VSeq KParameterList _ => torch_class "ParameterList"
  | VSeq KSize _ => torch_class "Size"
  | VDict c _ _ => c
  | VObj c _ => c
  end.

(** [v.__dict__]: empty for the built-in types. *)
Definition attrs_of (v : value) : list (string * value) :=
  match v with
  | VDict _ attrs _ => attrs
  | VObj _ attrs => attrs
  | _ => []
  end.

Fixpoint lookup (key : string) (l : list (string * value)) : option value :=
  match l with
  | [] => None
  | (k, v) :: l' => if String.eqb k key then Some v else lookup key l'
  end.

(** [getattr(v, key)] and [d[key]]. *)
Definition getattr (v : value) (key : string) : result value :=
  match lookup key (attrs_of v) with
  | Some x => Ok x
  | None => Raise AttributeError
  end.

Definition getitem (items : list (string * value)) (key : string) : result value :=
  match lookup key items with
  | Some x => Ok x
  | None => Raise KeyError
  end.

(** [d.keys()], and [set(ks1) == set(ks2)]. *)
Definition keys (items : list (string * value)) : list string := map fst items.

Definition keys_subset (ks1 ks2 : list string) : bool :=
  forallb (fun k => str_in k ks2) ks1.

Definition key_sets_equal (ks1 ks2 : list string) : bool :=
  keys_subset ks1 ks2 && keys_subset ks2 ks1.

(** [bool(v)], as [all], [not] and [if] take it. *)
Definition truthy (v : value) : result bool :=
  match v with
  | VNone => Ok false
  | VBool b => Ok b
  | VInt n => Ok (negb (n =? 0))
  | VFloat f => Ok (negb (float_eq f (S754_zero false)))
  | VDevice _ => Ok true
  | VTensor t => tensor_bool t
  | VSeq _ xs => Ok (negb (Nat.eqb (List.length xs) 0))
  | VDict _ _ items => Ok (negb (Nat.eqb (List.length items) 0))
  | VObj _ _ => Ok true
  end.

(** [a == b] for [a] an [int], [float], [None], [bool] or [torch.device].
    Numbers compare by value across [bool], [int] and [float]; against a
    tensor the comparison is the tensor's and yields a tensor; [None] and a
    device equal only their own kind. *)
Definition scalar_eq (a b : value) : result value :=
  match a, b with
  | VNone, VNone => Ok (VBool true)
  | VDevice d1, VDevice d2 => Ok (VBool (device_eq d1 d2))
  | VBool x, VBool y => Ok (VBool (Bool.eqb x y))
  | VBool x, VInt n => Ok (VBool (Z.b2z x =? n))
  | VBool x, VFloat f => Ok (VBool (int_eq_float (Z.b2z x) f))
  | VBool x, VTensor t => r <- tensor_eq_int (Z.b2z x) t ;; Ok (VTensor r)
  | VInt n, VBool y => Ok (VBool (n =? Z.b2z y))
  | VInt n, VInt m => Ok (VBool (n =? m))
  | VInt n, VFloat f => Ok (VBool (int_eq_float n f))
  | VInt n, VTensor t => r <- tensor_eq_int n t ;; Ok (VTensor r)
  | VFloat f, VBool y => Ok (VBool (int_eq_float (Z.b2z y) f))
  | VFloat f, VInt m => Ok (VBool (int_eq_float m f))
  | VFloat f, VFloat g => Ok (VBool (float_eq f g))
  | VFloat f, VTensor t => r <- tensor_eq_float f t ;; Ok (VTensor r)
  | _, _ => Ok (VBool false)
  end.

(** The float literals [1e-4] and [1e-6], as binary64 numbers. *)
Definition float_1e_4 : float := S754_finite false 7378697629483821 (-66).
Definition float_1e_6 : float := S754_finite false 4722366482869645 (-72).

(** ** [clone_me] *)

Definition clone_me (x : value) : result value :=
  match x with
  | VNone => Ok VNone
  | VTensor t =>
      Ok (VTensor (requires_grad_ (clone (detach t)) (requires_grad t)))
  | _ => Raise AttributeError
  end.

(** ** [same] *)

(** The type names of the last branch of [same]. *)
Definition same_named_types : list string :=
  [ "MaskedLMOutput"; "Seq2SeqLMOutput"; "CausalLMOutputWithCrossAttentions";
    "LongformerMaskedLMOutput"; "Instances"; "SquashedNormal"; "Boxes";
    "Normal"; "TanhTransform" ].

(** The tensor branch: everything it computes is printed and dropped, and
    the branch returns [True]. *)
Definition same_tensor (a b : Tensor) : result value :=
  _ <- allclose a b float_1e_4 float_1e_4 ;;
  let a := to_float32 (flatten a) in
  let b := to_float32 (flatten b) in
  _ <- cosine_similarity 0 float_1e_6 a b ;;
  d <- tensor_sub a b ;;
  let _ := tensor_take 10 (sort_descending (tensor_abs d)) in
  Ok (VBool true).

Section SameBody.

(** The recursive calls of [same]. *)
Variable rec : value -> value -> result value.

(** [all(same(ai, bi) for ai, bi in zip(a, b))]. *)
Fixpoint all_zip (xs ys : list value) : result value :=
  match xs, ys with
  | x :: xs', y :: ys' =>
      r <- rec x y ;;
      t <- truthy r ;;
      if t then all_zip xs' ys' else Ok (VBool false)
  | _, _ => Ok (VBool true)
  end.

(** [for k in a.keys(): if not same(a[k], b[k]): return False], then
    [return True]: [a]'s items in order, each value with [b]'s for the
    same key. *)
Fixpoint same_items (a_items b_items : list (string * value)) : result value :=
  match a_items with
  | [] => Ok (VBool true)
  | (k, va) :: rest =>
      vb <- getitem b_items k ;;
      r <- rec va vb ;;
      t <- truthy r ;;
      if t then same_items rest b_items else Ok (VBool false)
  end.

(** [all(same(getattr(a, key), getattr(b, key)) for key in a.__dict__.keys())]. *)
Fixpoint all_attrs (a_attrs : list (string * value)) (b : value) : result value :=
  match a_attrs with
  | [] => Ok (VBool true)
  | (key, va) :: rest =>
      vb <- getattr b key ;;
      r <- rec va vb ;;
      t <- truthy r ;;
      if t then all_attrs rest b else Ok (VBool false)
  end.

(** The body of [same], branch by branch. *)
Definition same_body (a b : value) : result value :=
  match a with
  | VSeq _ xs =>
      match b with
      | VSeq kb ys =>
          assert (is_list_or_tuple kb) ;;;
          if Nat.eqb (List.length xs) (List.length ys) then all_zip xs ys
          else Ok (VBool false)
      | _ => Raise AssertionError
      end
  | VDict _ _ a_items =>
      match b with
      | VDict _ _ b_items =>
          assert (key_sets_equal (keys a_items) (keys b_items)) ;;;
          same_items a_items b_items
      | _ => Raise AssertionError
      end
  | VTensor ta =>
      match b with
      | VTensor tb => same_tensor ta tb
      | _ => Raise AssertionError
      end
  | VNone | VBool _ | VInt _ | VFloat _ | VDevice _ => scalar_eq a b
  | VObj c a_attrs =>
      if str_in (cls_name c) same_named_types then
        assert (pyclass_is c (class_of b)) ;;;
        all_attrs a_attrs b
      else Raise RuntimeError
  end.

End SameBody.

(** [same(a, b)]: every recursive call is on a component of [a]. *)
Fixpoint same (a b : value) {struct a} : result value :=
  same_body same a b.

(** The recursion of [same] unfolded [depth] times, with [bottom] in the
    place of the calls that would go deeper. *)
Fixpoint same_unfold (depth : nat) (bottom : value -> value -> result value)
  (a b : value) : result value :=
  match depth with
  | O => bottom a b
  | S d => same_body (same_unfold d bottom) a b
  end.

(** How deep a value nests: 0 for the leaves, one more than its deepest
    component otherwise. *)
Fixpoint height (v : value) : nat :=
  match v with
  | VSeq _ xs => S (fold_right (fun x m => Nat.max (height x) m) O xs)
  | VDict _ attrs items =>
      S (Nat.max
           (fold_right (fun kv m => Nat.max (height (snd kv)) m) O attrs)
           (fold_right (fun kv m => Nat.max (height (snd kv)) m) O items))
  | VObj _ attrs =>
      S (fold_right (fun kv m => Nat.max (height (snd kv)) m) O attrs)
  | _ => O
  end.

(** ** [reduce_to_scalar_loss] *)

(** [x + y], for what [reduce_to_scalar_loss] adds up: the [int] that
    [sum] starts from and the tensors of [out.sum()]. *)
Definition py_add (x y : value) : result value :=
  match x, y with
  | VInt n, VInt m => Ok (VInt (n + m))
  | VInt n, VTensor t => r <- tensor_radd_int n t ;; Ok (VTensor r)
  | VTensor t, VInt n => r <- tensor_add_int t n ;; Ok (VTensor r)
  | VTensor s, VTensor t => r <- tensor_add s t ;; Ok (VTensor r)
  | _, _ => Raise TypeError
  end.

(** The built-in [sum(xs)]: [0 + xs[0] + xs[1] + ...]. *)
Fixpoint sum_from (acc : value) (xs : list value) : result value :=
  match xs with
  | [] => Ok acc
  | x :: xs' => acc' <- py_add acc x ;; sum_from acc' xs'
  end.

Definition py_sum (xs : list value) : result value := sum_from (VInt 0) xs.

(** The type names reduced through [out.logits]. *)
Definition logits_types : list string :=
  [ "MaskedLMOutput"; "Seq2SeqLMOutput"; "CausalLMOutputWithCrossAttentions" ].

Section ReduceBody.

Variable rec : value -> result value.

(** [reduce_to_scalar_loss(out.key)]. *)
Fixpoint reduce_attr (key : string) (attrs : list (string * value)) : result value :=
  match attrs with
  | [] => Raise AttributeError
  | (k, v) :: attrs' =>
      if String.eqb k key then rec v else reduce_attr key attrs'
  end.

(** The two branches on [type(out).__name__]; [otherwise] is the rest of
    the chain. *)
Definition reduce_named (c : pyclass) (attrs : list (string * value))
  (otherwise : result value) : result value :=
  if str_in (cls_name c) logits_types then reduce_attr "logits" attrs
  else if String.eqb (cls_name c) "SquashedNormal" then reduce_attr "mean" attrs
  else otherwise.

Definition reduce_body (out : value) : result value :=
  match out with
  | VTensor t => Ok (VTensor (tensor_sum t))
  | VSeq k xs =>
      if is_tuple k then rs <- mapM rec xs ;; py_sum rs
      else Raise NotImplementedError
  | VDict c attrs items =>
      reduce_named c attrs
        (rs <- mapM (fun kv => rec (snd kv)) items ;; py_sum rs)
  | VObj c attrs => reduce_named c attrs (Raise NotImplementedError)
  | _ => Raise NotImplementedError
  end.

End ReduceBody.

Fixpoint reduce_to_scalar_loss (out : value) {struct out} : result value :=
  reduce_body reduce_to_scalar_loss out.

End Values.

(** ** [CompileCounter] *)

(** A node of a [torch.fx] graph, by the field the counter reads. *)
Record Node : Type := {
  node_name : string;
  op : string
}.

Section Counter.

(** What [gm.forward] is. *)
Variable Forward : Type.

Record GraphModule : Type := {
  graph_nodes : list Node;
  forward : Forward
}.

Record CompileCounter : Type := {
  frame_count : Z;
  op_count : Z
}.

(** [CompileCounter()]. *)
Definition CompileCounter_init : CompileCounter :=
  {| frame_count := 0; op_count := 0 |}.

(** One turn of [for node in gm.graph.nodes]. *)
Definition count_node (self : CompileCounter) (node : Node) : CompileCounter :=
  if str_contains "call" (op node)
  then {| frame_count := frame_count self; op_count := op_count self + 1 |}
  else self.

(** [self(gm)]: the counter after the call, and what the call returns. *)
Definition CompileCounter_call (self : CompileCounter) (gm : GraphModule)
  : CompileCounter * Forward :=
  let self := {| frame_count := frame_count self + 1;
                 op_count := op_count self |} in
  let self := fold_left count_node (graph_nodes gm) self in
  (self, forward gm).

(** A run of calls on one counter, with what each returned. *)
Fixpoint CompileCounter_calls (self : CompileCounter) (gms : list GraphModule)
  : CompileCounter * list Forward :=
  match gms with
  | [] => (self, [])
  | gm :: gms' =>
      let '(self, f) := CompileCounter_call self gm in
      let '(self, fs) := CompileCounter_calls self gms' in
      (self, f :: fs)
  end.

(** The nodes of a graph whose [op] contains ["call"]. *)
Definition call_nodes (gm : GraphModule) : list Node :=
  filter (fun node => str_contains "call" (op node)) (graph_nodes gm).

End Counter.

Arguments graph_nodes {Forward} _.
Arguments forward {Forward} _.
Arguments CompileCounter_call {Forward} self gm.
Arguments CompileCounter_calls {Forward} self gms.
Arguments call_nodes {Forward} gm.

(** ** [format_speedup] *)

(** The nearest integer to [num / den] for [den > 0], a tie going to the
    even one: how a float is rounded to a number of decimals. *)
Definition round_half_even (num den : Z) : Z :=
  let q := num / den in
  let r := num mod den in
  if 2 * r <? den then q
  else if den <? 2 * r then q + 1
  else if Z.even q then q else q + 1.

Definition digit (d : Z) : ascii := ascii_of_nat (48 + Z.to_nat d).

(** [n >= 0] in decimal. *)
Definition decimal (n : Z) : string :=
  DecimalString.NilZero.string_of_uint (N.to_uint (Z.to_N n)).

(** The last [prec] decimal digits of [n], zeros included. *)
Fixpoint frac_digits (prec : nat) (n : Z) : string :=
  match prec with
  | O => EmptyString
  | S p => frac_digits p (n / 10) ++ String (digit (n mod 10)) EmptyString
  end.

(** [format(x, ".{prec}f")]: the exact value of [x] rounded to [prec]
    decimals. *)
Definition format_fixed (prec : nat) (x : float) : string :=
  match x with
  | S754_nan => "nan"
  | S754_infinity s => if s then "-inf" else "inf"
  | S754_zero s =>
      (if s then "-" else "") ++ "0" ++
      match prec with O => "" | S _ => "." ++ frac_digits prec 0 end
  | S754_finite s m e =>
      let p10 := 10 ^ Z.of_nat prec in
      let q := if 0 <=? e then Z.pos m * 2 ^ e * p10
               else round_half_even (Z.pos m * p10) (2 ^ (- e)) in
      (if s then "-" else "") ++ decimal (q / p10) ++
      match prec with O => "" | S _ => "." ++ frac_digits prec (q mod p10) end
  end.

(** The defaults of [is_correct] and [pvalue_threshold]: [True] and [0.1]. *)
Definition default_is_correct : bool := true.
Definition default_pvalue_threshold : float :=
  S754_finite false 7205759403792794 (-56).

Definition format_speedup (speedup pvalue : float) (is_correct : bool)
  (pvalue_threshold : float) : string :=
  if negb is_correct then "ERROR"
  else if float_gt pvalue pvalue_threshold
       then format_fixed 3 speedup ++ "x SAME"
       else format_fixed 3 speedup ++ "x p=" ++ format_fixed 2 pvalue.

(** ** [debug_insert_nops] *)

(** What the file imports from [bytecode_transformation] and [guards]:
    the two modules belong to the package and not to this file. *)
Class Bytecode : Type := {
  Code : Type;
  Instruction : Type;
  CodeOptions : Type;
  GuardedCodeT : Type;
  (** [create_instruction(name)]. *)
  create_instruction : string -> Instruction;
  (** [is_generator(code)]. *)
  is_generator : Code -> bool;
  (** [debug_checks(code)]: returns nothing, or raises. *)
  debug_checks : Code -> result unit;
  (** [transform_code_object(code, transformations)]: the transformation
      edits the instruction list and the options it is handed; here it
      returns them. *)
  transform_code_object :
    Code ->
    (list Instruction -> CodeOptions -> list Instruction * CodeOptions) ->
    result Code;
  (** [GuardedCode(code)]. *)
  GuardedCode : Code -> GuardedCodeT
}.

Section DebugInsertNops.

Context {B : Bytecode}.

Record Frame : Type := {
  f_code : Code
}.

(** [instructions.insert(0, x)]. *)
Definition insert0 (x : Instruction) (instructions : list Instruction)
  : list Instruction :=
  x :: instructions.

Definition insert_nops (instructions : list Instruction)
  (code_options : CodeOptions) : list Instruction * CodeOptions :=
  let instructions := insert0 (create_instruction "NOP") instructions in
  let instructions := insert0 (create_instruction "NOP") instructions in
  (instructions, code_options).

(** [None] is [Ok None]. *)
Definition debug_insert_nops (frame : Frame) (cache_size : Z)
  : result (option GuardedCodeT) :=
  if is_generator (f_code frame) then Ok None
  else
    debug_checks (f_code frame) ;;;
    code <- transform_code_object (f_code frame) insert_nops ;;
    Ok (Some (GuardedCode code)).

End DebugInsertNops.

(** ** [collect_results] *)

(** [t.grad] of a tensor: [None] or a tensor. *)
Class TorchGrad (T : Torch) : Type := {
  tensor_grad : Tensor -> option Tensor
}.

Section CollectResults.

Context {T : Torch} {G : TorchGrad T}.

(** [x.grad]: the gradient of a tensor, the attribute of an object, and an
    [AttributeError] on anything else. *)
Definition grad_of (x : value) : result value :=
  match x with
  | VTensor t =>
      Ok (match tensor_grad t with
          | Some g => VTensor g
          | None => VNone
          end)
  | _ => getattr x "grad"
  end.

(** [d[key] = v]: a key already there keeps its place and takes the new
    value, a new key goes to the end. *)
Fixpoint dict_set (items : list (string * value)) (key : string) (v : value)
  : list (string * value) :=
  match items with
  | [] => [(key, v)]
  | (k, x) :: items' =>
      if String.eqb k key then (k, v) :: items'
      else (k, x) :: dict_set items' key v
  end.

(** [for name, param in model.named_parameters():
       grads[name + ".grad"] = clone_me(param.grad)];
    the model is the list its [named_parameters()] yields. *)
Fixpoint collect_grads (named_parameters : list (string * Tensor))
  (grads : list (string * value)) : result (list (string * value)) :=
  match named_parameters with
  | [] => Ok grads
  | (name, param) :: rest =>
      g <- grad_of (VTensor param) ;;
      c <- clone_me g ;;
      collect_grads rest (dict_set grads (name ++ ".grad") c)
  end.

(** [for inp in example: results.append(clone_me(inp.grad))]. *)
Fixpoint collect_list (example : list value) (results : list value)
  : result (list value) :=
  match example with
  | [] => Ok results
  | inp :: rest =>
      g <- grad_of inp ;;
      c <- clone_me g ;;
      collect_list rest (results ++ [c])%list
  end.

(** The loop over [example_inputs]. *)
Fixpoint collect_examples (example_inputs : list value) (results : list value)
  : result (list value) :=
  match example_inputs with
  | [] => Ok results
  | example :: rest =>
      results <-
        match example with
        | VSeq KList inps => collect_list inps results
        | _ =>
            g <- grad_of example ;;
            c <- clone_me g ;;
            Ok (results ++ [c])%list
        end ;;
      collect_examples rest results
  end.

Definition collect_results (model : list (string * Tensor))
  (prediction loss : value) (example_inputs : list value)
  : result (list value) :=
  let results := [] in
  let results := (results ++ [prediction])%list in
  let results := (results ++ [loss])%list in
  grads <- collect_grads model [] ;;
  let results := (results ++ [VDict (builtin "dict") [] grads])%list in
  collect_examples example_inputs results.

End CollectResults.

(** ** [debug_dir] *)

(** The file system as [os.path.exists] and [os.mkdir] see it; [None] is
    an [OSError]. *)
Class FileSystem : Type := {
  Files : Type;
  path_exists : Files -> string -> bool;
  mkdir : Files -> string -> option Files
}.

(** [os.path.join(a, b)] on POSIX. *)
Definition path_join (a b : string) : string :=
  if String.prefix "/" b then b
  else if String.eqb a "" || ends_with "/" a then a ++ b
  else a ++ "/" ++ b.

Section DebugDir.

Context {F : FileSystem}.

(** [os.path.dirname(__file__)]. *)
Variable module_dir : string.

(** The files after the call, and the path it returns. *)
Definition debug_dir (files : Files) : option (Files * string) :=
  let path := path_join module_dir "../debug" in
  if negb (path_exists files path) then
    match mkdir files path with
    | Some files' => Some (files', path)
    | None => None
    end
  else Some (files, path).

End DebugDir.

(** ** [dummy_fx_compile] *)


(** ** [TestCase] *)

Section TestCaseHarness.

(** What [torchdynamo.reset()] works on. *)
Variable Caches : Type.

(** The state of the package that the class touches: its caches,
    [torchdynamo.config.debug], and [torchdynamo.utils.counters] (a
    counter of names under each name). *)
Record Dynamo : Type := {
  caches : Caches;
  config_debug : bool;
  counters : list (string * list (string * Z))
}.

(** [torchdynamo.reset()]. *)
Variable reset : Dynamo -> Dynamo.

(** The class object: [cls.prior_debug], absent until [setUpClass] sets it. *)
Record TestCase : Type := {
  prior_debug : option bool
}.

Definition set_config_debug (td : Dynamo) (b : bool) : Dynamo :=
  {| caches := caches td; config_debug := b; counters := counters td |}.

(** [counters.clear()]. *)
Definition clear_counters (td : Dynamo) : Dynamo :=
  {| caches := caches td; config_debug := config_debug td; counters := [] |}.

Definition tearDownClass (cls : TestCase) (td : Dynamo) : result Dynamo :=
  let td := reset td in
  match prior_debug cls with
  | Some prior => Ok (set_config_debug td prior)
  | None => Raise AttributeError
  end.

Definition setUpClass (cls : TestCase) (td : Dynamo) : TestCase * Dynamo :=
  let td := reset td in
  let cls := {| prior_debug := Some (config_debug td) |} in
  (cls, set_config_debug td true).

Definition setUp (td : Dynamo) : Dynamo := clear_counters td.

Definition tearDown (td : Dynamo) : Dynamo := clear_counters td.

End TestCaseHarness.

Arguments caches {Caches} _.
Arguments config_debug {Caches} _.
Arguments counters {Caches} _.
Arguments set_config_debug {Caches} td b.
Arguments clear_counters {Caches} td.
Arguments tearDownClass {Caches} reset cls td.
Arguments setUpClass {Caches} reset cls td.
Arguments setUp {Caches} td.
Arguments tearDown {Caches} td.

(** ** What the properties are stated with *)

Section Holds.

Context {T : Torch}.

(** A call of [same] holds when it returns and what it returns is true
    for [all], [not] and [if]. *)
Definition holds (r : result value) : Prop :=
  exists v, r = Ok v /\ truthy v = Ok true.

(** The item of [a] and the item of [b] under the key [k], compared. *)
Definition same_at (a_items b_items : list (string * value)) (k : string)
  : result value :=
  va <- getitem a_items k ;;
  vb <- getitem b_items k ;;
  same va vb.

(** Two key lists make the same set. *)
Definition same_key_set (ks1 ks2 : list string) : Prop :=
  forall k, In k ks1 <-> In k ks2.

(** The sum of [reduce_to_scalar_loss] applied to each of [outs]. *)
Definition sum_of_losses (outs : list value) : result value :=
  rs <- mapM reduce_to_scalar_loss outs ;; py_sum rs.

(** The type names that [reduce_to_scalar_loss] reduces through one
    attribute. *)
Definition reduced_by_attribute (c : pyclass) : bool :=
  str_in (cls_name c) logits_types || String.eqb (cls_name c) "SquashedNormal".

End Holds.

(** ** Values the properties single out *)

(** The keys of a list are apart. *)
Fixpoint distinct (ks : list string) : bool :=
  match ks with
  | [] => true
  | k :: ks' => negb (str_in k ks') && distinct ks'
  end.

Section Shapes.

Context {T : Torch}.


(** Values made of [None], bools, ints, floats other than NaN, and of
    lists, tuples, sizes, dicts and objects of the named types holding
    such values. *)
Fixpoint plain (v : value) : bool :=
  match v with
  | VNone | VBool _ | VInt _ => true
  | VFloat f => float_eq f f
  | VDevice _ | VTensor _ => false
  | VSeq k xs => is_list_or_tuple k && forallb plain xs
  | VDict _ _ items =>
      distinct (keys items) && forallb (fun kv => plain (snd kv)) items
  | VObj c attrs =>
      str_in (cls_name c) same_named_types &&
      distinct (keys attrs) && forallb (fun kv => plain (snd kv)) attrs
  end.


(** What [reduce_to_scalar_loss] can return: a tensor, or the [0] that
    [sum] starts from. *)
Definition zero_or_tensor (v : value) : Prop :=
  v = VInt 0 \/ exists t, v = VTensor t.

(** An example input of [collect_results] that has gradients to collect: a
    tensor, or a list of tensors. *)
Definition tensor_example (example : value) : bool :=
  match example with
  | VTensor _ => true
  | VSeq KList inps =>
      forallb (fun inp => match inp with VTensor _ => true | _ => false end) inps
  | _ => false
  end.

(** How many results an example input adds. *)
Definition example_size (example : value) : nat :=
  match example with
  | VSeq KList inps => List.length inps
  | _ => 1%nat
  end.

End Shapes.

Section Gradients.

Context {T : Torch} {G : TorchGrad T}.

(** [clone_me(t.grad)] for a tensor [t]. *)
Definition grad_clone (t : Tensor) : value :=
  match tensor_grad t with
  | Some g => VTensor (requires_grad_ (clone (detach g)) (requires_grad g))
  | None => VNone
  end.

(** [None] or a tensor: what [clone_me] returns. *)
Definition none_or_tensor (v : value) : Prop :=
  v = VNone \/ exists t, v = VTensor t.

End Gradients.

(** ** Instances of the two interfaces, to run the definitions on

    A tensor is one exact integer (a zero-dimensional integer tensor, no
    rounding), a device its name.  A code object is its generator flag and
    the names of its instructions. *)

(** A finite float as a fraction [(numerator, denominator)]. *)
Definition float_ratio (f : float) : option (Z * Z) :=
  match f with
  | S754_zero _ => Some (0, 1)
  | S754_finite s m e =>
      let v := if s then Z.neg m else Z.pos m in
      Some (if 0 <=? e then (v * 2 ^ e, 1) else (v, 2 ^ (- e)))
  | _ => None
  end.

(** [|a - b| <= atol + rtol * |b|]. *)
Definition int_allclose (a b : Z) (atol rtol : float) : result bool :=
  match float_ratio atol, float_ratio rtol with
  | Some (na, da), Some (nr, dr) =>
      Ok (Z.abs (a - b) * da * dr <=? na * dr + nr * Z.abs b * da)
  | _, _ => Raise RuntimeError
  end.

Definition IntTorch : Torch := {|
  Tensor := Z;
  Device := string;
  device_eq := String.eqb;
  allclose := int_allclose;
  flatten := fun t => t;
  to_float32 := fun t => t;
  cosine_similarity := fun _ _ a b => Ok (Z.sgn a * Z.sgn b);
  tensor_sub := fun a b => Ok (a - b);
  tensor_abs := Z.abs;
  sort_descending := fun t => t;
  tensor_take := fun _ t => t;
  tensor_bool := fun t => Ok (negb (t =? 0));
  tensor_eq_int := fun n t => Ok (Z.b2z (n =? t));
  tensor_eq_float := fun x t => Ok (Z.b2z (int_eq_float t x));
  tensor_sum := fun t => t;
  tensor_radd_int := fun n t => Ok (n + t);
  tensor_add_int := fun t n => Ok (t + n);
  tensor_add := fun a b => Ok (a + b);
  detach := fun t => t;
  clone := fun t => t;
  requires_grad := fun _ => false;
  requires_grad_ := fun t _ => t
|}.

(** [torch.tensor(n)] on this instance. *)
Definition int_tensor (n : Z) : @value IntTorch := @VTensor IntTorch n.

Record ListCode : Type := {
  co_generator : bool;
  co_instructions : list string
}.

Definition ListBytecode : Bytecode := {|
  Code := ListCode;
  Instruction := string;
  CodeOptions := unit;
  GuardedCodeT := ListCode;
  create_instruction := fun name => name;
  is_generator := co_generator;
  debug_checks := fun _ => Ok tt;
  transform_code_object := fun code transformations =>
    Ok {| co_generator := co_generator code;
          co_instructions := fst (transformations (co_instructions code) tt) |};
  GuardedCode := fun code => code
|}.

(** Gradients on the integer instance: a tensor below zero has none, any
    other has the gradient 1. *)
Definition int_grad (t : Z) : option Z :=
  if t <? 0 then None else Some 1.

Definition IntTorchGrad : TorchGrad IntTorch :=
  @Build_TorchGrad IntTorch int_grad.

(** A file system that is the list of its paths. *)
Definition ListFiles : FileSystem := {|
  Files := list string;
  path_exists := fun files path => str_in path files;
  mkdir := fun files path =>
    if str_in path files then None else Some (path :: files)
|}.

(** * Properties *)

(** ** The error monad *)

Lemma bind_ok {A B : Type} (r : result A) (k : A -> result B) (b : B) :
  bind r k = Ok b <-> exists a, r = Ok a /\ k a = Ok b.
Proof.
  split.
  - destruct r as [a|e]; simpl; intros H; [exists a; auto | discriminate].
  - intros [a [-> H]]. exact H.
Qed.

Lemma assert_ok (c : bool) : assert c = Ok tt <-> c = true.
Proof. destruct c; simpl; split; intros; congruence. Qed.

(** From [H : (x <- c ;; k) = Ok b], the value [x] that [c] returned. *)
Tactic Notation "bind_inv" hyp(H) "as" ident(x) ident(Hx) :=
  apply bind_ok in H; destruct H as [x [Hx H]].

(** ** Strings *)

Lemma prefix_app (s1 s2 : string) :
  String.prefix s1 s2 = true <-> exists post, s2 = s1 ++ post.
Proof.
  revert s2. induction s1 as [|c s1 IH]; intros s2.
  - split; [intros _; exists s2; reflexivity|destruct s2; reflexivity].
  - destruct s2 as [|c2 s2]; simpl.
    + split; [discriminate|intros [post E]; discriminate].
    + destruct (ascii_dec c c2) as [->|NE].
      * rewrite IH. split; intros [post E]; exists post; congruence.
      * split; [discriminate|]. intros [post E]. congruence.
Qed.

(** [str_contains] is the substring test. *)
Lemma str_contains_spec (needle hay : string) :
  str_contains needle hay = true <->
  exists pre post, hay = pre ++ needle ++ post.
Proof.
  induction hay as [|c hay IH]; cbn [str_contains].
  - rewrite orb_false_r, prefix_app. split.
    + intros [post E]. exists EmptyString, post. exact E.
    + intros [pre [post E]]. destruct pre; [exists post; exact E|discriminate].
  - rewrite orb_true_iff, prefix_app, IH. split.
    + intros [[post E]|[pre [post E]]].
      * exists EmptyString, post. exact E.
      * exists (String c pre), post. simpl. congruence.
    + intros [pre [post E]]. destruct pre as [|c' pre].
      * left. exists post. exact E.
      * right. exists pre, post. simpl in E. congruence.
Qed.

(** ** [clone_me] *)

(** C7: [clone_me(None)] returns [None]; nothing is detached or cloned. *)
Theorem clone_me_None {T : Torch} : clone_me VNone = Ok VNone.
Proof. reflexivity. Qed.

(** ** [same], the tensor branch *)

Section SameTensor.

Context {T : Torch}.

(** On two tensors [same] is the tensor branch. *)
Lemma same_VTensor (a b : Tensor) :
  same (VTensor a) (VTensor b) = same_tensor a b.
Proof. reflexivity. Qed.

(** The tensor branch returns [True] or lets an exception of the library
    through; it has no path to [False]. *)
Lemma same_tensor_Ok (a b : Tensor) (v : value) :
  same_tensor a b = Ok v -> v = VBool true.
Proof.
  unfold same_tensor. intros H.
  bind_inv H as close Hclose.
  bind_inv H as cos Hcos.
  bind_inv H as d Hd.
  congruence.
Qed.

End SameTensor.

(** C1: [same] on tensors never answers [False], whatever the values are:
    on the integer instance the tensors 0 and 1000 are not close
    ([allclose] says so) and [same] returns [True] all the same; and over
    any tensor library a returned value is [True]. *)
Theorem same_tensor_ignores_values :
  @allclose IntTorch 0 1000 float_1e_4 float_1e_4 = Ok false /\
  same (int_tensor 0) (int_tensor 1000) = Ok (VBool true) /\
  (forall (T : Torch) (a b : Tensor) (v : value),
      same (VTensor a) (VTensor b) = Ok v -> v = VBool true).
Proof.
  split; [reflexivity|]. split; [reflexivity|].
  intros T a b v H. rewrite same_VTensor in H.
  exact (same_tensor_Ok a b v H).
Qed.

(** ** [same], the sequence branch *)

Section SameSequences.

Context {T : Torch}.

Lemma same_unfold_body (a b : value) : same a b = same_body same a b.
Proof. destruct a; reflexivity. Qed.

(** [all] over the zipped pairs is [True] exactly when every pair holds. *)
Lemma all_zip_true (rec : value -> value -> result value) (xs ys : list value) :
  all_zip rec xs ys = Ok (VBool true) <->
  (forall x y, In (x, y) (combine xs ys) -> holds (rec x y)).
Proof.
  revert ys. induction xs as [|x xs IH]; intros ys.
  - simpl. split; [intros _ x y []|reflexivity].
  - destruct ys as [|y ys].
    + simpl. split; [intros _ x0 y0 []|reflexivity].
    + simpl. split.
      * intros H.
        bind_inv H as r Hr.
        bind_inv H as t Ht.
        destruct t; [|discriminate].
        intros x0 y0 [E|Hin].
        -- inversion E; subst. exists r. split; assumption.
        -- apply (proj1 (IH ys) H). exact Hin.
      * intros H.
        destruct (H x y (or_introl eq_refl)) as [r [Hr Ht]].
        rewrite Hr. simpl. rewrite Ht. simpl.
        apply IH. intros x0 y0 Hin. apply H. right. exact Hin.
Qed.

End SameSequences.

(** C2: for [a] a list, tuple, ParameterList or Size and [b] a list or a
    tuple, [same(a, b)] returns [True] if and only if the two have the same
    length and [same] holds for every pair of [zip(a, b)]. *)
Theorem same_sequences {T : Torch} (ka kb : seq_kind) (xs ys : list value)
  (Hb : is_list_or_tuple kb = true) :
  same (VSeq ka xs) (VSeq kb ys) = Ok (VBool true) <->
  List.length xs = List.length ys /\
  (forall x y, In (x, y) (combine xs ys) -> holds (same x y)).
Proof.
  rewrite same_unfold_body. simpl. rewrite Hb. simpl.
  destruct (Nat.eqb_spec (List.length xs) (List.length ys)) as [E|NE].
  - rewrite all_zip_true. tauto.
  - split; [discriminate|]. intros [E _]. contradiction.
Qed.

Lemma same_sequences_witness :
  is_list_or_tuple KTuple = true /\
  (same (VSeq KSize [@VInt IntTorch 2; VInt 1]) (VSeq KTuple [VInt 2; VBool true])
     = Ok (VBool true) <->
   List.length [@VInt IntTorch 2; VInt 1] = List.length [@VInt IntTorch 2; VBool true] /\
   (forall x y, In (x, y) (combine [@VInt IntTorch 2; VInt 1] [VInt 2; VBool true]) ->
                holds (same x y))).
Proof.
  split; [reflexivity|].
  apply (@same_sequences IntTorch KSize KTuple). reflexivity.
Defined.

(** ** [same], the dict branch *)

Section SameDicts.

Context {T : Torch}.

Lemma str_in_In (x : string) (names : list string) :
  str_in x names = true <-> In x names.
Proof.
  unfold str_in. rewrite existsb_exists. split.
  - intros [y [Hin E]]. apply String.eqb_eq in E. subst. exact Hin.
  - intros Hin. exists x. split; [exact Hin|apply String.eqb_refl].
Qed.

Lemma keys_subset_incl (ks1 ks2 : list string) :
  keys_subset ks1 ks2 = true <-> (forall k, In k ks1 -> In k ks2).
Proof.
  unfold keys_subset. rewrite forallb_forall.
  split; intros H k Hin; apply str_in_In + apply <- str_in_In; auto.
Qed.

(** [set(a.keys()) == set(b.keys())] decides that the key sets are equal. *)
Lemma key_sets_equal_spec (ks1 ks2 : list string) :
  key_sets_equal ks1 ks2 = true <-> same_key_set ks1 ks2.
Proof.
  unfold key_sets_equal, same_key_set.
  rewrite andb_true_iff, !keys_subset_incl.
  split.
  - intros [H1 H2] k. split; auto.
  - intros H. split; intros k; apply H.
Qed.

Lemma lookup_In (key : string) (v : value) (l : list (string * value)) :
  lookup key l = Some v -> In (key, v) l.
Proof.
  induction l as [|[k x] l IH]; simpl; [discriminate|].
  destruct (String.eqb_spec k key) as [->|NE].
  - intros E. inversion E. left. reflexivity.
  - intros H. right. apply IH. exact H.
Qed.

Lemma lookup_None (key : string) (l : list (string * value)) :
  lookup key l = None <-> ~ In key (keys l).
Proof.
  induction l as [|[k x] l IH]; simpl.
  - split; [intros _ []|reflexivity].
  - destruct (String.eqb_spec k key) as [->|NE].
    + split; [discriminate|]. intros H. exfalso. apply H. left. reflexivity.
    + rewrite IH. split.
      * intros H [E|Hin]; [contradiction|]. apply H. exact Hin.
      * intros H Hin. apply H. right. exact Hin.
Qed.

(** With keys apart, [d[k]] is the value stored with [k]. *)
Lemma In_lookup (key : string) (v : value) (l : list (string * value)) :
  NoDup (keys l) -> In (key, v) l -> lookup key l = Some v.
Proof.
  induction l as [|[k x] l IH]; simpl; intros ND Hin; [contradiction|].
  inversion ND as [|? ? Hk ND']; subst.
  destruct Hin as [E|Hin].
  - inversion E; subst. rewrite String.eqb_refl. reflexivity.
  - destruct (String.eqb_spec k key) as [->|NE].
    + exfalso. apply Hk. unfold keys. apply in_map_iff.
      exists (key, v). split; [reflexivity|exact Hin].
    + apply IH; assumption.
Qed.

(** The loop over [a.keys()] returns [True] exactly when every item of [a]
    has an item of [b] under its key and the two compare true. *)
Lemma same_items_true (rec : value -> value -> result value)
  (a_items b_items : list (string * value)) :
  same_items rec a_items b_items = Ok (VBool true) <->
  (forall k va, In (k, va) a_items ->
     exists vb, getitem b_items k = Ok vb /\ holds (rec va vb)).
Proof.
  induction a_items as [|[k va] rest IH]; simpl.
  - split; [intros _ k va []|reflexivity].
  - split.
    + intros H.
      bind_inv H as vb Hvb.
      bind_inv H as r Hr.
      bind_inv H as t Ht.
      destruct t; [|discriminate].
      intros k0 va0 [E|Hin].
      * inversion E; subst. exists vb. split; [exact Hvb|].
        exists r. split; assumption.
      * apply (proj1 IH H). exact Hin.
    + intros H.
      destruct (H k va (or_introl eq_refl)) as [vb [Hvb [r [Hr Ht]]]].
      rewrite Hvb. simpl. rewrite Hr. simpl. rewrite Ht. simpl.
      apply IH. intros k0 va0 Hin. apply H. right. exact Hin.
Qed.

Lemma holds_same_at (a_items b_items : list (string * value)) (k : string) :
  holds (same_at a_items b_items k) <->
  exists va vb, lookup k a_items = Some va /\ lookup k b_items = Some vb /\
                holds (same va vb).
Proof.
  unfold same_at, getitem. split.
  - intros [v [H Hv]].
    destruct (lookup k a_items) as [va|]; [|discriminate].
    destruct (lookup k b_items) as [vb|]; [|discriminate].
    simpl in H. exists va, vb. repeat split. exists v. split; assumption.
  - intros [va [vb [-> [-> H]]]]. exact H.
Qed.

End SameDicts.

(** C5: for two dicts with the same key set, [same(a, b)] returns [True] if
    and only if [same(a[k], b[k])] holds for every key [k]; with different
    key sets the call does not return [False], it fails the assertion. *)
Theorem same_dicts {T : Torch} (ca cb : pyclass)
  (a_attrs b_attrs a_items b_items : list (string * value))
  (Hkeys : NoDup (keys a_items)) :
  (same_key_set (keys a_items) (keys b_items) ->
   (same (VDict ca a_attrs a_items) (VDict cb b_attrs b_items) = Ok (VBool true) <->
    forall k, In k (keys a_items) -> holds (same_at a_items b_items k))) /\
  (~ same_key_set (keys a_items) (keys b_items) ->
   same (VDict ca a_attrs a_items) (VDict cb b_attrs b_items) = Raise AssertionError).
Proof.
  rewrite same_unfold_body. simpl. split.
  - intros HK. apply key_sets_equal_spec in HK. rewrite HK. simpl.
    rewrite same_items_true. split.
    + intros H k Hin. apply holds_same_at.
      unfold keys in Hin. apply in_map_iff in Hin.
      destruct Hin as [[k0 va] [E Hin]]. simpl in E. subst k0.
      destruct (H k va Hin) as [vb [Hvb Hh]].
      exists va, vb. split; [apply In_lookup; assumption|].
      split; [|exact Hh].
      unfold getitem in Hvb. destruct (lookup k b_items); congruence.
    + intros H k va Hin.
      assert (Hk : In k (keys a_items)).
      { unfold keys. apply in_map_iff. exists (k, va). split; [reflexivity|exact Hin]. }
      apply H in Hk. apply holds_same_at in Hk.
      destruct Hk as [va' [vb [Ha [Hb Hh]]]].
      rewrite (In_lookup k va a_items Hkeys Hin) in Ha. inversion Ha; subst va'.
      exists vb. split; [|exact Hh].
      unfold getitem. rewrite Hb. reflexivity.
  - intros HK.
    destruct (key_sets_equal (keys a_items) (keys b_items)) eqn:E.
    + exfalso. apply HK. apply key_sets_equal_spec. exact E.
    + reflexivity.
Qed.

Lemma same_dicts_witness :
  NoDup (keys [("w", @VInt IntTorch 1); ("b", VNone)]) /\
  same (VDict (builtin "dict") [] [("w", @VInt IntTorch 1); ("b", VNone)])
       (VDict (builtin "dict") [] [("b", VNone); ("w", VBool true)])
    = Ok (VBool true) /\
  same (VDict (builtin "dict") [] [("w", @VInt IntTorch 1); ("b", VNone)])
       (VDict (builtin "dict") [] [("w", VInt 1)])
    = Raise AssertionError.
Proof.
  assert (ND : NoDup (keys [("w", @VInt IntTorch 1); ("b", VNone)])).
  { simpl. repeat constructor; simpl; intuition discriminate. }
  split; [exact ND|]. split.
  - apply (proj1 (@same_dicts IntTorch (builtin "dict") (builtin "dict") [] []
                    [("w", VInt 1); ("b", VNone)]
                    [("b", VNone); ("w", VBool true)] ND)).
    + intros k. simpl. tauto.
    + intros k Hin. simpl in Hin.
      destruct Hin as [<-|[<-|[]]]; eexists; (split; [reflexivity|reflexivity]).
  - apply (proj2 (@same_dicts IntTorch (builtin "dict") (builtin "dict") [] []
                    [("w", VInt 1); ("b", VNone)]
                    [("w", VInt 1)] ND)).
    intros H. destruct (proj1 (H "b")) as [E|[]].
    + simpl. tauto.
    + discriminate.
Defined.

(** ** [same], termination *)

Section SameTermination.

Context {T : Torch}.

Lemma height_le_fold {A : Type} (f : A -> nat) (x : A) (l : list A) :
  In x l -> (f x <= fold_right (fun y m => Nat.max (f y) m) O l)%nat.
Proof.
  induction l as [|y l IH]; simpl; intros Hin; [contradiction|].
  destruct Hin as [->|Hin]; [lia|]. apply IH in Hin. lia.
Qed.

Lemma height_seq (k : seq_kind) (x : value) (xs : list value) :
  In x xs -> (height x < height (VSeq k xs))%nat.
Proof.
  intros Hin. simpl. apply (height_le_fold height) in Hin. lia.
Qed.

Lemma height_items (c : pyclass) (attrs items : list (string * value))
  (k : string) (x : value) :
  In (k, x) items -> (height x < height (VDict c attrs items))%nat.
Proof.
  intros Hin. simpl.
  apply (height_le_fold (fun kv => height (snd kv))) in Hin. simpl in Hin. lia.
Qed.

Lemma height_attrs (c : pyclass) (attrs : list (string * value))
  (k : string) (x : value) :
  In (k, x) attrs -> (height x < height (VObj c attrs))%nat.
Proof.
  intros Hin. simpl.
  apply (height_le_fold (fun kv => height (snd kv))) in Hin. simpl in Hin. lia.
Qed.

Variables rec1 rec2 : value -> value -> result value.

Lemma all_zip_ext (xs ys : list value) :
  (forall x y, In x xs -> rec1 x y = rec2 x y) ->
  all_zip rec1 xs ys = all_zip rec2 xs ys.
Proof.
  revert ys. induction xs as [|x xs IH]; intros ys H; [reflexivity|].
  destruct ys as [|y ys]; [reflexivity|]. simpl.
  rewrite (H x y (or_introl eq_refl)).
  rewrite IH; [reflexivity|]. intros x0 y0 Hin. apply H. right. exact Hin.
Qed.

Lemma same_items_ext (a_items b_items : list (string * value)) :
  (forall k x y, In (k, x) a_items -> rec1 x y = rec2 x y) ->
  same_items rec1 a_items b_items = same_items rec2 a_items b_items.
Proof.
  induction a_items as [|[k va] rest IH]; intros H; [reflexivity|]. simpl.
  destruct (getitem b_items k) as [vb|e]; [|reflexivity]. simpl.
  rewrite (H k va vb (or_introl eq_refl)).
  rewrite IH; [reflexivity|]. intros k0 x y Hin. apply (H k0). right. exact Hin.
Qed.

Lemma all_attrs_ext (a_attrs : list (string * value)) (b : value) :
  (forall k x y, In (k, x) a_attrs -> rec1 x y = rec2 x y) ->
  all_attrs rec1 a_attrs b = all_attrs rec2 a_attrs b.
Proof.
  induction a_attrs as [|[k va] rest IH]; intros H; [reflexivity|]. simpl.
  destruct (getattr b k) as [vb|e]; [|reflexivity]. simpl.
  rewrite (H k va vb (or_introl eq_refl)).
  rewrite IH; [reflexivity|]. intros k0 x y Hin. apply (H k0). right. exact Hin.
Qed.

(** The body of [same] calls back only on values that nest less deep than
    its first argument: two functions that agree there give one result. *)
Lemma same_body_ext (a b : value) :
  (forall x y, (height x < height a)%nat -> rec1 x y = rec2 x y) ->
  same_body rec1 a b = same_body rec2 a b.
Proof.
  intros H. destruct a as [| | | | | |k xs|c attrs items|c attrs];
    try reflexivity; simpl.
  - destruct b; try reflexivity.
    rewrite all_zip_ext; [reflexivity|].
    intros x y Hin. apply H. apply height_seq. exact Hin.
  - destruct b; try reflexivity.
    rewrite same_items_ext; [reflexivity|].
    intros k x y Hin. apply H. apply (height_items c attrs items k). exact Hin.
  - rewrite all_attrs_ext; [reflexivity|].
    intros k x y Hin. apply H. apply (height_attrs c attrs k). exact Hin.
Qed.

End SameTermination.

(** C6: [same] terminates. Its body recurses only on values that nest
    strictly less deep than [a], so unfolding the recursion more times than
    [a] nests deep reaches no further call: whatever stands at the bottom,
    the unfolding is the total function [same]. *)
Theorem same_terminates {T : Torch} (a b : value) (depth : nat)
  (bottom : value -> value -> result value)
  (Hdepth : (height a < depth)%nat) :
  same_unfold depth bottom a b = same a b /\
  (forall rec1 rec2 : value -> value -> result value,
     (forall x y, (height x < height a)%nat -> rec1 x y = rec2 x y) ->
     same_body rec1 a b = same_body rec2 a b).
Proof.
  split; [|intros rec1 rec2; apply same_body_ext].
  revert a b Hdepth. induction depth as [|d IH]; intros a b Hd; [lia|].
  simpl. rewrite same_unfold_body.
  apply same_body_ext. intros x y Hx. apply IH. lia.
Qed.

Lemma same_terminates_witness :
  (height (VSeq KList [VSeq KTuple [int_tensor 1]; VNone]) < 3)%nat /\
  same_unfold 3 (fun _ _ => Raise RuntimeError)
    (VSeq KList [VSeq KTuple [int_tensor 1]; VNone])
    (VSeq KList [VSeq KTuple [int_tensor 1]; VNone]) = Ok (VBool true).
Proof.
  split; [simpl; lia|].
  rewrite (proj1 (@same_terminates IntTorch
                    (VSeq KList [VSeq KTuple [int_tensor 1]; VNone])
                    (VSeq KList [VSeq KTuple [int_tensor 1]; VNone])
                    3%nat (fun _ _ => Raise RuntimeError) ltac:(simpl; lia))).
  reflexivity.
Defined.

(** ** [CompileCounter] *)

Section CounterProperties.

Variable Forward : Type.

Lemma fold_count_node (nodes : list Node) (self : CompileCounter) :
  fold_left count_node nodes self =
  {| frame_count := frame_count self;
     op_count := op_count self +
       Z.of_nat (List.length
                   (filter (fun node => str_contains "call" (op node)) nodes)) |}.
Proof.
  revert self. induction nodes as [|node nodes IH]; intros self; simpl.
  - destruct self; simpl. f_equal. lia.
  - rewrite IH. unfold count_node.
    destruct (str_contains "call" (op node)); simpl; f_equal; lia.
Qed.

Lemma CompileCounter_call_eq (self : CompileCounter) (gm : GraphModule Forward) :
  CompileCounter_call self gm =
  ({| frame_count := frame_count self + 1;
      op_count := op_count self + Z.of_nat (List.length (call_nodes gm)) |},
   forward gm).
Proof.
  unfold CompileCounter_call, call_nodes. rewrite fold_count_node. reflexivity.
Qed.

Lemma CompileCounter_calls_eq (gms : list (GraphModule Forward))
  (self : CompileCounter) :
  CompileCounter_calls self gms =
  ({| frame_count := frame_count self + Z.of_nat (List.length gms);
      op_count := op_count self +
        Z.of_nat (List.length (flat_map call_nodes gms)) |},
   map forward gms).
Proof.
  revert self. induction gms as [|gm gms IH]; intros self.
  - simpl. destruct self; simpl. do 2 f_equal; lia.
  - cbn [CompileCounter_calls]. rewrite CompileCounter_call_eq, IH.
    cbn [frame_count op_count flat_map map List.length].
    rewrite length_app, Nat2Z.inj_add, Nat2Z.inj_succ.
    f_equal. f_equal; lia.
Qed.

End CounterProperties.

(** C3: a counter starts at [frame_count = 0] and [op_count = 0]; a call
    adds 1 to [frame_count] and, to [op_count], the number of nodes of the
    graph whose [op] contains ["call"], and returns [gm.forward]; so after
    [n] calls [frame_count] is [n] and [op_count] is the number of such
    nodes over all the graphs. *)
Theorem CompileCounter_counts (Forward : Type) :
  frame_count CompileCounter_init = 0 /\
  op_count CompileCounter_init = 0 /\
  (forall (self : CompileCounter) (gm : GraphModule Forward),
     let '(self', returned) := CompileCounter_call self gm in
     frame_count self' = frame_count self + 1 /\
     op_count self' = op_count self + Z.of_nat (List.length (call_nodes gm)) /\
     returned = forward gm) /\
  (forall gms : list (GraphModule Forward),
     let '(self', returned) := CompileCounter_calls CompileCounter_init gms in
     frame_count self' = Z.of_nat (List.length gms) /\
     op_count self' = Z.of_nat (List.length (flat_map call_nodes gms)) /\
     returned = map forward gms).
Proof.
  split; [reflexivity|]. split; [reflexivity|]. split.
  - intros self gm. rewrite CompileCounter_call_eq. simpl. auto.
  - intros gms. rewrite CompileCounter_calls_eq. simpl. auto.
Qed.

(** ** [reduce_to_scalar_loss] *)

Section ReduceProperties.

Context {T : Torch}.

Lemma reduce_unfold_body (out : value) :
  reduce_to_scalar_loss out = reduce_body reduce_to_scalar_loss out.
Proof. destruct out; reflexivity. Qed.

Lemma mapM_map {A B C : Type} (g : A -> B) (f : B -> result C) (l : list A) :
  mapM f (map g l) = mapM (fun x => f (g x)) l.
Proof.
  induction l as [|x l IH]; simpl; [reflexivity|]. rewrite IH. reflexivity.
Qed.

Lemma reduce_named_otherwise (c : pyclass) (attrs : list (string * value))
  (otherwise : result value) :
  reduced_by_attribute c = false ->
  reduce_named reduce_to_scalar_loss c attrs otherwise = otherwise.
Proof.
  unfold reduced_by_attribute, reduce_named. intros H.
  apply orb_false_iff in H. destruct H as [-> ->]. reflexivity.
Qed.

End ReduceProperties.

(** C4, as the code has it: a tensor reduces to [out.sum()], a tuple to the
    sum of the reductions of its elements, and a dict whose type name is
    none of those reduced through an attribute to the sum of the reductions
    of its values. *)
Theorem reduce_to_scalar_loss_cases {T : Torch} :
  (forall t : Tensor,
     reduce_to_scalar_loss (VTensor t) = Ok (VTensor (tensor_sum t))) /\
  (forall (k : seq_kind) (xs : list value),
     is_tuple k = true ->
     reduce_to_scalar_loss (VSeq k xs) = sum_of_losses xs) /\
  (forall (c : pyclass) (attrs items : list (string * value)),
     reduced_by_attribute c = false ->
     reduce_to_scalar_loss (VDict c attrs items) = sum_of_losses (map snd items)).
Proof.
  split; [reflexivity|]. split.
  - intros k xs Hk. rewrite reduce_unfold_body. simpl. rewrite Hk. reflexivity.
  - intros c attrs items Hc. rewrite reduce_unfold_body. simpl.
    rewrite reduce_named_otherwise by exact Hc.
    unfold sum_of_losses. rewrite mapM_map. reflexivity.
Qed.

Lemma reduce_to_scalar_loss_cases_witness :
  is_tuple KTuple = true /\
  reduced_by_attribute (builtin "dict") = false /\
  reduce_to_scalar_loss (VSeq KTuple [int_tensor 2; int_tensor 5])
    = sum_of_losses [int_tensor 2; int_tensor 5] /\
  reduce_to_scalar_loss
    (VDict (builtin "dict") [] [("loss", int_tensor 2); ("logits", int_tensor 5)])
    = sum_of_losses (map snd [("loss", int_tensor 2); ("logits", int_tensor 5)]).
Proof.
  split; [reflexivity|]. split; [reflexivity|]. split.
  - apply (proj1 (proj2 (@reduce_to_scalar_loss_cases IntTorch))). reflexivity.
  - apply (proj2 (proj2 (@reduce_to_scalar_loss_cases IntTorch))). reflexivity.
Defined.

(** C4, as stated, fails on a dict of one of the named types: an ordered
    dictionary of class [MaskedLMOutput] with the items [loss] and [logits]
    reduces to its [logits] alone, not to the sum over its values. *)
Lemma reduce_dict_counterexample :
  let out :=
    VDict {| cls_module := "transformers.modeling_outputs";
             cls_name := "MaskedLMOutput" |}
          [("loss", int_tensor 2); ("logits", int_tensor 5)]
          [("loss", int_tensor 2); ("logits", int_tensor 5)] in
  reduce_to_scalar_loss out = Ok (int_tensor 5) /\
  sum_of_losses (map snd [("loss", int_tensor 2); ("logits", int_tensor 5)])
    = Ok (int_tensor 7) /\
  reduce_to_scalar_loss out
    <> sum_of_losses (map snd [("loss", int_tensor 2); ("logits", int_tensor 5)]).
Proof.
  split; [reflexivity|]. split; [reflexivity|]. discriminate.
Qed.

(** ** [format_speedup] *)

Section Suffixes.

Lemma string_app_assoc (s1 s2 s3 : string) :
  s1 ++ s2 ++ s3 = (s1 ++ s2) ++ s3.
Proof.
  induction s1 as [|c s1 IH]; simpl; [reflexivity|]. rewrite IH. reflexivity.
Qed.

Lemma ends_with_refl (s : string) : ends_with s s = true.
Proof. destruct s; cbn [ends_with]; rewrite String.eqb_refl; reflexivity. Qed.

Lemma ends_with_app (suffix s : string) : ends_with suffix (s ++ suffix) = true.
Proof.
  induction s as [|c s IH]; cbn [append ends_with].
  - apply ends_with_refl.
  - rewrite IH. apply orb_true_r.
Qed.

(** [ends_with] is the suffix test. *)
Lemma ends_with_spec (suffix s : string) :
  ends_with suffix s = true <-> exists pre, s = pre ++ suffix.
Proof.
  split.
  - induction s as [|c s IH]; cbn [ends_with]; intros H.
    + rewrite orb_false_r in H. apply String.eqb_eq in H.
      exists EmptyString. symmetry. exact H.
    + apply orb_true_iff in H. destruct H as [H|H].
      * apply String.eqb_eq in H. exists EmptyString. symmetry. exact H.
      * destruct (IH H) as [pre E]. exists (String c pre). simpl. congruence.
  - intros [pre ->]. apply ends_with_app.
Qed.

Lemma last_char_cons (c : ascii) (s : string) :
  s <> EmptyString -> last_char (String c s) = last_char s.
Proof. destruct s; [congruence|reflexivity]. Qed.

Lemma last_char_app (s1 s2 : string) :
  s2 <> EmptyString -> last_char (s1 ++ s2) = last_char s2.
Proof.
  intros H. induction s1 as [|c s1 IH]; simpl; [reflexivity|].
  destruct (s1 ++ s2) eqn:E.
  - destruct s1; simpl in E; [contradiction|discriminate].
  - exact IH.
Qed.

Lemma last_char_None (s : string) : last_char s = None -> s = EmptyString.
Proof.
  induction s as [|c s IH]; [reflexivity|]. simpl.
  destruct s; [discriminate|]. intros H. apply IH in H. discriminate.
Qed.

(** A string that ends with a non-empty suffix ends with its last
    character. *)
Lemma ends_with_last_char (suffix s : string) :
  suffix <> EmptyString -> ends_with suffix s = true ->
  last_char s = last_char suffix.
Proof.
  intros Hne. induction s as [|c s IH]; cbn [ends_with]; intros H.
  - rewrite orb_false_r in H. apply String.eqb_eq in H. contradiction.
  - apply orb_true_iff in H. destruct H as [H|H].
    + apply String.eqb_eq in H. subst suffix. reflexivity.
    + specialize (IH H). destruct s as [|c' s'].
      * simpl in IH. symmetry in IH. apply last_char_None in IH. contradiction.
      * exact IH.
Qed.

Lemma digit_not_E (n : Z) : digit (n mod 10) <> "E"%char.
Proof.
  unfold digit.
  assert (H : (Z.to_nat (n mod 10) < 10)%nat)
    by (pose proof (Z.mod_pos_bound n 10 eq_refl); lia).
  revert H. generalize (Z.to_nat (n mod 10)). intros k Hk.
  do 10 (destruct k as [|k]; [vm_compute; discriminate|]).
  lia.
Qed.

Lemma last_char_frac_digits (p : nat) (n : Z) :
  last_char (frac_digits (S p) n) = Some (digit (n mod 10)).
Proof. simpl. rewrite last_char_app by discriminate. reflexivity. Qed.

(** A float to [prec >= 1] decimals ends in a digit, or in the [n] of
    [nan], or in the [f] of [inf]: never in [E]. *)
Lemma last_char_format_fixed (p : nat) (x : float) :
  last_char (format_fixed (S p) x) <> Some "E"%char /\
  format_fixed (S p) x <> EmptyString.
Proof.
  assert (D : forall sign whole n,
             last_char (sign ++ whole ++ "." ++ frac_digits (S p) n)
               <> Some "E"%char /\
             sign ++ whole ++ "." ++ frac_digits (S p) n <> EmptyString).
  { intros sign whole n.
    assert (NE : frac_digits (S p) n <> EmptyString).
    { intros E. pose proof (last_char_frac_digits p n) as L.
      rewrite E in L. discriminate. }
    assert (NE' : whole ++ "." ++ frac_digits (S p) n <> EmptyString)
      by (destruct whole; simpl; discriminate).
    split.
    - rewrite last_char_app by exact NE'.
      rewrite last_char_app by (simpl; discriminate).
      change ("." ++ frac_digits (S p) n) with (String "." (frac_digits (S p) n)).
      rewrite last_char_cons by exact NE.
      rewrite last_char_frac_digits. intros E. inversion E as [E'].
      exact (digit_not_E n E').
    - destruct sign; [exact NE'|simpl; discriminate]. }
  destruct x as [s|s| |s m e].
  - exact (D (if s then "-" else "") "0" 0).
  - destruct s; simpl; split; discriminate.
  - simpl; split; discriminate.
  - unfold format_fixed. cbv zeta. apply D.
Qed.

End Suffixes.

(** C8: with [is_correct] false the result is ["ERROR"], whatever the
    speedup and the p-value; with [is_correct] true the result ends in
    ["SAME"] exactly when [pvalue > pvalue_threshold], and ends in ["p="]
    followed by the p-value to two decimals exactly when it does not. *)
Theorem format_speedup_cases (speedup pvalue pvalue_threshold : float) :
  format_speedup speedup pvalue false pvalue_threshold = "ERROR" /\
  ends_with "SAME" (format_speedup speedup pvalue true pvalue_threshold)
    = float_gt pvalue pvalue_threshold /\
  ends_with ("p=" ++ format_fixed 2 pvalue)
            (format_speedup speedup pvalue true pvalue_threshold)
    = negb (float_gt pvalue pvalue_threshold).
Proof.
  split; [reflexivity|].
  unfold format_speedup. simpl negb at 1. cbv iota.
  destruct (last_char_format_fixed 1 pvalue) as [HE HN].
  destruct (float_gt pvalue pvalue_threshold) eqn:G.
  - split.
    + change (format_fixed 3 speedup ++ "x SAME")
        with (format_fixed 3 speedup ++ "x " ++ "SAME").
      rewrite string_app_assoc. apply ends_with_app.
    + simpl negb.
      destruct (ends_with ("p=" ++ format_fixed 2 pvalue)
                  (format_fixed 3 speedup ++ "x SAME")) eqn:W; [|reflexivity].
      apply ends_with_last_char in W; [|simpl; discriminate].
      rewrite last_char_app in W by discriminate.
      rewrite last_char_app in W by exact HN.
      simpl in W. rewrite <- W in HE. contradiction.
  - split.
    + destruct (ends_with "SAME"
                  (format_fixed 3 speedup ++ "x p=" ++ format_fixed 2 pvalue))
        eqn:W; [|reflexivity].
      apply ends_with_last_char in W; [|discriminate].
      rewrite last_char_app in W by (simpl; discriminate).
      rewrite last_char_app in W by exact HN.
      simpl in W. contradiction.
    + simpl negb.
      change ("x p=" ++ format_fixed 2 pvalue)
        with ("x " ++ "p=" ++ format_fixed 2 pvalue).
      rewrite string_app_assoc. apply ends_with_app.
Qed.

(** ** [debug_insert_nops] *)

(** C9: on a frame whose code is a generator the call returns [None]; and
    when it returns a [GuardedCode], the code is not a generator, it has
    been transformed by [insert_nops], and the [GuardedCode] wraps the
    transformed code. *)
Theorem debug_insert_nops_generator {B : Bytecode} (frame : Frame) (cache_size : Z) :
  (is_generator (f_code frame) = true ->
   debug_insert_nops frame cache_size = Ok None) /\
  (forall g : GuardedCodeT,
     debug_insert_nops frame cache_size = Ok (Some g) ->
     is_generator (f_code frame) = false /\
     exists code : Code,
       transform_code_object (f_code frame) insert_nops = Ok code /\
       g = GuardedCode code).
Proof.
  unfold debug_insert_nops. split.
  - intros ->. reflexivity.
  - intros g H. destruct (is_generator (f_code frame)); [discriminate|].
    split; [reflexivity|].
    bind_inv H as u Hu.
    bind_inv H as code Hc.
    exists code. split; [exact Hc|]. congruence.
Qed.

Lemma debug_insert_nops_generator_witness :
  let gen := @Build_Frame ListBytecode
               {| co_generator := true; co_instructions := ["YIELD_VALUE"] |} in
  let fn := @Build_Frame ListBytecode
              {| co_generator := false; co_instructions := ["RETURN_VALUE"] |} in
  let out := {| co_generator := false;
                co_instructions := ["NOP"; "NOP"; "RETURN_VALUE"] |} in
  is_generator (f_code gen) = true /\
  debug_insert_nops gen 0 = Ok None /\
  debug_insert_nops fn 0 = Ok (Some out) /\
  is_generator (f_code fn) = false.
Proof.
  intros gen fn out.
  split; [reflexivity|]. split.
  - apply (proj1 (@debug_insert_nops_generator ListBytecode gen 0)). reflexivity.
  - split; [reflexivity|].
    apply (proj2 (@debug_insert_nops_generator ListBytecode fn 0) out). reflexivity.
Defined.

(** ** Runs on the instances *)

Section Runs.

#[local] Existing Instance IntTorch.

Let dict : pyclass := builtin "dict".

(** Tensors that differ do not make [same] fail, nested or not. *)
Example same_nested_run :
  same (VSeq KList [VDict dict [] [("w", int_tensor 1)]; VNone])
       (VSeq KTuple [VDict dict [] [("w", int_tensor 9)]; VNone])
  = Ok (VBool true).
Proof. reflexivity. Qed.

Example same_length_run :
  same (VSeq KList [VInt 1]) (VSeq KList []) = Ok (VBool false).
Proof. reflexivity. Qed.

Example same_type_mismatch_run :
  same (VSeq KList []) VNone = Raise AssertionError.
Proof. reflexivity. Qed.

Example same_parameter_list_run :
  same (VSeq KList []) (VSeq KParameterList []) = Raise AssertionError.
Proof. reflexivity. Qed.

(** [1 == True == 1.0] in Python. *)
Example same_numbers_run :
  same (VSeq KTuple [VInt 1; VBool true])
       (VSeq KTuple [VBool true; VFloat (S754_finite false 4503599627370496 (-52))])
  = Ok (VBool true).
Proof. reflexivity. Qed.

(** A number against a tensor: [==] is the tensor's, and so is the result. *)
Example same_int_tensor_run :
  same (VInt 1) (int_tensor 1) = Ok (int_tensor 1).
Proof. reflexivity. Qed.

Example same_unsupported_run :
  same (VObj (builtin "str") []) (VObj (builtin "str") []) = Raise RuntimeError.
Proof. reflexivity. Qed.

Example same_named_run :
  let boxes (n : Z) :=
    VObj {| cls_module := "detectron2.structures.boxes"; cls_name := "Boxes" |}
         [("tensor", VSeq KList [VInt n])] in
  same (boxes 4) (boxes 4) = Ok (VBool true) /\
  same (boxes 4) (boxes 5) = Ok (VBool false) /\
  same (boxes 4) (VInt 4) = Raise AssertionError.
Proof. repeat split. Qed.

(** The first key that fails decides: a later unsupported value is not
    reached. *)
Example same_dict_order_run :
  same (VDict dict [] [("a", VInt 1); ("b", VObj (builtin "str") [])])
       (VDict dict [] [("b", VNone); ("a", VInt 2)])
  = Ok (VBool false).
Proof. reflexivity. Qed.

Example reduce_tuple_run :
  reduce_to_scalar_loss
    (VSeq KTuple [int_tensor 2; VSeq KTuple []; VSeq KTuple [int_tensor 5]])
  = Ok (int_tensor 7) /\
  reduce_to_scalar_loss (VSeq KTuple []) = Ok (VInt 0) /\
  reduce_to_scalar_loss (VSeq KList [int_tensor 2]) = Raise NotImplementedError.
Proof. repeat split. Qed.

Example clone_me_run :
  clone_me (int_tensor 3) = Ok (int_tensor 3) /\
  clone_me (VInt 3) = Raise AttributeError.
Proof. split; reflexivity. Qed.

Example CompileCounter_run :
  let gm (ops : list string) (f : nat) :=
    {| graph_nodes := map (fun o => {| node_name := "n"; op := o |}) ops;
       forward := f |} in
  CompileCounter_calls CompileCounter_init
    [ gm ["placeholder"; "call_function"; "call_method"; "output"] 1%nat;
      gm ["placeholder"; "get_attr"; "call_module"; "output"] 2%nat ]
  = ({| frame_count := 2; op_count := 3 |}, [1%nat; 2%nat]).
Proof. reflexivity. Qed.

(** [format_speedup(1.5, 0.03125)], [format_speedup(1.5, 0.25)] and
    [format_speedup(1.5, 0.25, is_correct=False)]. *)
Example format_speedup_run :
  let x1_5 := S754_finite false 6755399441055744 (-52) in
  let x0_03125 := S754_finite false 4503599627370496 (-57) in
  let x0_25 := S754_finite false 4503599627370496 (-54) in
  format_speedup x1_5 x0_03125 default_is_correct default_pvalue_threshold
    = "1.500x p=0.03" /\
  format_speedup x1_5 x0_25 default_is_correct default_pvalue_threshold
    = "1.500x SAME" /\
  format_speedup x1_5 S754_nan default_is_correct default_pvalue_threshold
    = "1.500x p=nan" /\
  format_speedup x1_5 x0_25 false default_pvalue_threshold = "ERROR".
Proof. repeat split; vm_compute; reflexivity. Qed.

End Runs.

(** * Further properties *)

(** ** [same] on a value and itself *)

Section SameReflexive.

Context {T : Torch}.

Lemma distinct_NoDup (ks : list string) : distinct ks = true <-> NoDup ks.
Proof.
  induction ks as [|k ks IH]; simpl.
  - split; [constructor|reflexivity].
  - rewrite andb_true_iff, negb_true_iff, IH. split.
    + intros [Hk ND]. constructor; [|exact ND].
      intros Hin. apply str_in_In in Hin. congruence.
    + intros ND. inversion ND as [|? ? Hk ND']; subst. split; [|exact ND'].
      destruct (str_in k ks) eqn:E; [|reflexivity].
      apply str_in_In in E. contradiction.
Qed.

Lemma in_combine_diag {A : Type} (x y : A) (l : list A) :
  In (x, y) (combine l l) -> x = y /\ In x l.
Proof.
  induction l as [|z l IH]; simpl; [intros []|].
  intros [E|Hin].
  - inversion E; subst. split; [reflexivity|left; reflexivity].
  - destruct (IH Hin) as [E Hx]. split; [exact E|right; exact Hx].
Qed.

(** [all] over the attributes is [True] exactly when [b] has every
    attribute of [a] and the two values compare true. *)
Lemma all_attrs_true (rec : value -> value -> result value)
  (a_attrs : list (string * value)) (b : value) :
  all_attrs rec a_attrs b = Ok (VBool true) <->
  (forall k va, In (k, va) a_attrs ->
     exists vb, getattr b k = Ok vb /\ holds (rec va vb)).
Proof.
  induction a_attrs as [|[k va] rest IH]; simpl.
  - split; [intros _ k va []|reflexivity].
  - split.
    + intros H.
      bind_inv H as vb Hvb. bind_inv H as r Hr. bind_inv H as t Ht.
      destruct t; [|discriminate].
      intros k0 va0 [E|Hin].
      * inversion E; subst. exists vb. split; [exact Hvb|].
        exists r. split; assumption.
      * apply (proj1 IH H). exact Hin.
    + intros H.
      destruct (H k va (or_introl eq_refl)) as [vb [Hvb [r [Hr Ht]]]].
      rewrite Hvb. simpl. rewrite Hr. simpl. rewrite Ht. simpl.
      apply IH. intros k0 va0 Hin. apply H. right. exact Hin.
Qed.

Lemma holds_true : holds (Ok (VBool true)).
Proof. exists (VBool true). split; reflexivity. Qed.

Lemma pyclass_is_refl (c : pyclass) : pyclass_is c c = true.
Proof. unfold pyclass_is. rewrite !String.eqb_refl. reflexivity. Qed.

Lemma same_key_set_refl (ks : list string) : key_sets_equal ks ks = true.
Proof. apply key_sets_equal_spec. intros k. tauto. Qed.

Lemma same_reflexive_below (n : nat) :
  forall a, (height a < n)%nat -> plain a = true -> same a a = Ok (VBool true).
Proof.
  induction n as [|n IH]; intros a Hh Hp; [lia|].
  rewrite same_unfold_body.
  destruct a as [|x|x|f|d|t|k xs|c attrs items|c attrs];
    cbn [plain] in Hp; try discriminate; cbn [same_body].
  - reflexivity.
  - simpl. rewrite Bool.eqb_reflx. reflexivity.
  - simpl. rewrite Z.eqb_refl. reflexivity.
  - simpl. rewrite Hp. reflexivity.
  - apply andb_true_iff in Hp. destruct Hp as [Hk Hxs].
    rewrite Hk, Nat.eqb_refl. simpl.
    apply all_zip_true. intros x y Hin.
    apply in_combine_diag in Hin. destruct Hin as [<- Hin].
    rewrite IH; [apply holds_true| |].
    + pose proof (height_seq k x xs Hin). lia.
    + rewrite forallb_forall in Hxs. apply Hxs. exact Hin.
  - apply andb_true_iff in Hp. destruct Hp as [Hd Hitems].
    apply distinct_NoDup in Hd.
    rewrite same_key_set_refl. simpl.
    apply same_items_true. intros k va Hin.
    exists va. split.
    + unfold getitem. rewrite (In_lookup k va items Hd Hin). reflexivity.
    + rewrite IH; [apply holds_true| |].
      * pose proof (height_items c attrs items k va Hin). lia.
      * rewrite forallb_forall in Hitems. apply (Hitems (k, va)). exact Hin.
  - apply andb_true_iff in Hp. destruct Hp as [Hp Hattrs].
    apply andb_true_iff in Hp. destruct Hp as [Hc Hd].
    apply distinct_NoDup in Hd.
    rewrite Hc. cbn [class_of]. rewrite pyclass_is_refl. simpl.
    apply all_attrs_true. intros k va Hin.
    exists va. split.
    + unfold getattr. cbn [attrs_of].
      rewrite (In_lookup k va attrs Hd Hin). reflexivity.
    + rewrite IH; [apply holds_true| |].
      * pose proof (height_attrs c attrs k va Hin). lia.
      * rewrite forallb_forall in Hattrs. apply (Hattrs (k, va)). exact Hin.
Qed.

End SameReflexive.

(** X1: a value without tensors, devices, NaN, ParameterLists and objects
    of other types than the named ones compares true with itself. *)
Theorem same_plain_reflexive {T : Torch} (a : value) (Hplain : plain a = true) :
  same a a = Ok (VBool true).
Proof. apply (same_reflexive_below (S (height a))); [lia|exact Hplain]. Qed.

Lemma same_plain_reflexive_witness :
  let a := VSeq KTuple
             [VDict (builtin "dict") []
                    [("n", @VInt IntTorch 3); ("flag", VBool false)];
              VObj {| cls_module := "torch.distributions.normal";
                      cls_name := "Normal" |}
                   [("loc", VInt 0); ("scale", VSeq KSize [VInt 1; VInt 2])];
              VNone] in
  plain a = true /\ same a a = Ok (VBool true).
Proof.
  intros a. split; [reflexivity|].
  apply (@same_plain_reflexive IntTorch a). reflexivity.
Defined.

(** ** [same] and the order of a dict *)

Section SameDictOrder.

Context {T : Torch}.

Lemma keys_permutation (l l' : list (string * value)) :
  Permutation l l' -> Permutation (keys l) (keys l').
Proof. apply Permutation_map. Qed.

(** With keys apart, [d[k]] does not depend on the order of the items. *)
Lemma lookup_permutation (k : string) (l l' : list (string * value)) :
  Permutation l l' -> NoDup (keys l) -> lookup k l = lookup k l'.
Proof.
  intros P ND.
  assert (ND' : NoDup (keys l'))
    by (apply (Permutation_NoDup (keys_permutation l l' P)); exact ND).
  destruct (lookup k l) as [v|] eqn:E.
  - symmetry. apply In_lookup; [exact ND'|].
    apply (Permutation_in _ P). apply lookup_In. exact E.
  - symmetry. apply lookup_None. apply lookup_None in E.
    intros Hin. apply E.
    apply (Permutation_in _ (Permutation_sym (keys_permutation l l' P))).
    exact Hin.
Qed.

Lemma key_sets_equal_permutation (ks1 ks1' ks2 ks2' : list string) :
  Permutation ks1 ks1' -> Permutation ks2 ks2' ->
  key_sets_equal ks1 ks2 = key_sets_equal ks1' ks2'.
Proof.
  intros P1 P2. apply Bool.eq_iff_eq_true.
  rewrite !key_sets_equal_spec. unfold same_key_set.
  assert (E1 : forall k, In k ks1 <-> In k ks1').
  { intros k. split; apply Permutation_in; [|apply Permutation_sym]; exact P1. }
  assert (E2 : forall k, In k ks2 <-> In k ks2').
  { intros k. split; apply Permutation_in; [|apply Permutation_sym]; exact P2. }
  split; intros H k; specialize (H k); specialize (E1 k); specialize (E2 k);
    tauto.
Qed.

Lemma same_items_getitem (rec : value -> value -> result value)
  (a_items b_items b_items' : list (string * value)) :
  (forall k, getitem b_items k = getitem b_items' k) ->
  same_items rec a_items b_items = same_items rec a_items b_items'.
Proof.
  intros H. induction a_items as [|[k va] rest IH]; simpl; [reflexivity|].
  rewrite H, IH. reflexivity.
Qed.

(** On two dicts [same] returns [True] exactly when the key sets are equal
    and the loop over the items ends with [True]. *)
Lemma same_dict_true (ca cb : pyclass)
  (a_attrs b_attrs a_items b_items : list (string * value)) :
  same (VDict ca a_attrs a_items) (VDict cb b_attrs b_items) = Ok (VBool true) <->
  key_sets_equal (keys a_items) (keys b_items) = true /\
  same_items same a_items b_items = Ok (VBool true).
Proof.
  rewrite same_unfold_body. cbn [same_body].
  destruct (key_sets_equal (keys a_items) (keys b_items)); simpl.
  - tauto.
  - split; [discriminate|intros [E _]; discriminate].
Qed.

End SameDictOrder.

(** X2: the order in which [b] holds its items does not matter to
    [same(a, b)], whatever the outcome. *)
Theorem same_dict_b_order {T : Torch} (ca cb cb' : pyclass)
  (a_attrs b_attrs b_attrs' a_items b_items b_items' : list (string * value))
  (Hperm : Permutation b_items b_items')
  (Hkeys : NoDup (keys b_items)) :
  same (VDict ca a_attrs a_items) (VDict cb b_attrs b_items) =
  same (VDict ca a_attrs a_items) (VDict cb' b_attrs' b_items').
Proof.
  rewrite !same_unfold_body. cbn [same_body].
  rewrite (key_sets_equal_permutation (keys a_items) (keys a_items)
             (keys b_items) (keys b_items'))
    by (apply Permutation_refl || apply keys_permutation; exact Hperm).
  rewrite (same_items_getitem same a_items b_items b_items'); [reflexivity|].
  intros k. unfold getitem.
  rewrite (lookup_permutation k b_items b_items' Hperm Hkeys). reflexivity.
Qed.

Lemma same_dict_b_order_witness :
  let a := [("w", @VInt IntTorch 1); ("b", VNone)] in
  let b := [("w", @VInt IntTorch 1); ("b", VInt 0)] in
  let b' := [("b", @VInt IntTorch 0); ("w", VInt 1)] in
  Permutation b b' /\ NoDup (keys b) /\
  same (VDict (builtin "dict") [] a) (VDict (builtin "dict") [] b) =
  same (VDict (builtin "dict") [] a) (VDict (builtin "dict") [] b').
Proof.
  intros a b b'.
  assert (P : Permutation b b') by apply perm_swap.
  assert (ND : NoDup (keys b)).
  { simpl. repeat constructor; simpl; intuition discriminate. }
  split; [exact P|]. split; [exact ND|].
  apply (@same_dict_b_order IntTorch _ _ _ [] [] [] a b b' P ND).
Defined.

(** X3: the order in which [a] holds its items does not matter to whether
    [same(a, b)] returns [True] (it can matter to which of [False] and an
    exception a failing comparison ends with). *)
Theorem same_dict_a_order {T : Torch} (ca ca' cb : pyclass)
  (a_attrs a_attrs' b_attrs a_items a_items' b_items : list (string * value))
  (Hperm : Permutation a_items a_items') :
  same (VDict ca a_attrs a_items) (VDict cb b_attrs b_items) = Ok (VBool true) <->
  same (VDict ca' a_attrs' a_items') (VDict cb b_attrs b_items) = Ok (VBool true).
Proof.
  rewrite !same_dict_true, !same_items_true.
  rewrite (key_sets_equal_permutation (keys a_items) (keys a_items')
             (keys b_items) (keys b_items))
    by (apply Permutation_refl || apply keys_permutation; exact Hperm).
  split; intros [HK H]; (split; [exact HK|]); intros k va Hin; apply H.
  - apply (Permutation_in _ (Permutation_sym Hperm)). exact Hin.
  - apply (Permutation_in _ Hperm). exact Hin.
Qed.

Lemma same_dict_a_order_witness :
  let a := [("w", @VInt IntTorch 1); ("b", VNone)] in
  let a' := [("b", @VNone IntTorch); ("w", VInt 1)] in
  let b := [("w", @VBool IntTorch true); ("b", VNone)] in
  Permutation a a' /\
  same (VDict (builtin "dict") [] a') (VDict (builtin "dict") [] b)
    = Ok (VBool true).
Proof.
  intros a a' b.
  assert (P : Permutation a a') by apply perm_swap.
  split; [exact P|].
  apply (proj1 (@same_dict_a_order IntTorch (builtin "dict") (builtin "dict")
                  (builtin "dict") [] [] [] a a' b P)).
  reflexivity.
Defined.

(** ** How [same] can end *)

Section SameOutcomes.

Context {T : Torch}.




Variable rec : value -> value -> result value.




End SameOutcomes.




(** ** [same] on objects of the named types *)

Lemma all_attrs_getattr {T : Torch} (rec : value -> value -> result value)
  (a_attrs : list (string * value)) (b b' : value) :
  (forall key, In key (keys a_attrs) -> getattr b key = getattr b' key) ->
  all_attrs rec a_attrs b = all_attrs rec a_attrs b'.
Proof.
  induction a_attrs as [|[k va] rest IH]; intros H; [reflexivity|]. simpl.
  rewrite (H k) by (left; reflexivity).
  rewrite IH; [reflexivity|]. intros key Hin. apply H. right. exact Hin.
Qed.

(** X5: of [b], the last branch of [same] reads the class and the
    attributes that [a] has; what else [b] carries is never compared, so
    [same(a, b)] can be [True] where [same(b, a)] is not. *)
Theorem same_named_reads {T : Torch} (c : pyclass)
  (a_attrs : list (string * value)) (b b' : value)
  (Hclass : class_of b = class_of b')
  (Hattrs : forall key, In key (keys a_attrs) -> getattr b key = getattr b' key) :
  same (VObj c a_attrs) b = same (VObj c a_attrs) b'.
Proof.
  rewrite !same_unfold_body. cbn [same_body].
  rewrite Hclass, (all_attrs_getattr same a_attrs b b' Hattrs). reflexivity.
Qed.

Lemma same_named_reads_witness :
  let boxes := {| cls_module := "detectron2.structures.boxes";
                  cls_name := "Boxes" |} in
  let a := VObj boxes [("tensor", @VInt IntTorch 4)] in
  let b := VObj boxes [("tensor", @VInt IntTorch 4); ("extra", VInt 7)] in
  same a b = same a a /\
  same a b = Ok (VBool true) /\
  same b a = Raise AttributeError.
Proof.
  intros boxes a b. split; [|split; reflexivity].
  apply (@same_named_reads IntTorch boxes [("tensor", VInt 4)] b a).
  - reflexivity.
  - intros key [<-|[]]. reflexivity.
Defined.

(** ** What [reduce_to_scalar_loss] returns *)

Section ReduceShape.

Context {T : Torch}.

Lemma py_add_shape (x y v : value) :
  zero_or_tensor x -> zero_or_tensor y -> py_add x y = Ok v -> zero_or_tensor v.
Proof.
  intros [->|[s ->]] [->|[t ->]]; simpl; intros H.
  - inversion H. left. reflexivity.
  - bind_inv H as r Hr. inversion H. right. exists r. reflexivity.
  - bind_inv H as r Hr. inversion H. right. exists r. reflexivity.
  - bind_inv H as r Hr. inversion H. right. exists r. reflexivity.
Qed.

Lemma sum_from_shape (xs : list value) :
  forall acc v, zero_or_tensor acc -> Forall zero_or_tensor xs ->
                sum_from acc xs = Ok v -> zero_or_tensor v.
Proof.
  induction xs as [|x xs IH]; intros acc v Hacc Hxs H; simpl in H.
  - inversion H; subst. exact Hacc.
  - inversion Hxs as [|? ? Hx Hxs']; subst.
    bind_inv H as acc' Hadd.
    apply (IH acc' v); [|exact Hxs'|exact H].
    apply (py_add_shape acc x acc' Hacc Hx Hadd).
Qed.

Lemma mapM_Forall {A B : Type} (f : A -> result B) (P : B -> Prop)
  (xs : list A) :
  (forall x y, In x xs -> f x = Ok y -> P y) ->
  forall ys, mapM f xs = Ok ys -> Forall P ys.
Proof.
  induction xs as [|x xs IH]; intros Hf ys H; simpl in H.
  - inversion H. constructor.
  - bind_inv H as y Hy. bind_inv H as ys' Hys. inversion H; subst.
    constructor.
    + apply (Hf x y); [left; reflexivity|exact Hy].
    + apply IH; [|exact Hys]. intros x0 y0 Hin. apply Hf. right. exact Hin.
Qed.

Lemma reduce_attr_shape (rec : value -> result value) (P : value -> Prop)
  (key : string) (attrs : list (string * value)) (v : value) :
  (forall k x y, In (k, x) attrs -> rec x = Ok y -> P y) ->
  reduce_attr rec key attrs = Ok v -> P v.
Proof.
  induction attrs as [|[k x] attrs IH]; intros Hrec H; simpl in H;
    [discriminate|].
  destruct (String.eqb k key).
  - apply (Hrec k x v); [left; reflexivity|exact H].
  - apply IH; [|exact H]. intros k0 x0 y Hin. apply (Hrec k0). right. exact Hin.
Qed.

(** [reduce_to_scalar_loss(out.key)] is the attribute looked up, then
    reduced. *)
Lemma reduce_attr_getattr (rec : value -> result value) (c : pyclass)
  (key : string) (attrs : list (string * value)) :
  reduce_attr rec key attrs = (v <- getattr (VObj c attrs) key ;; rec v).
Proof.
  unfold getattr. cbn [attrs_of].
  induction attrs as [|[k x] attrs IH]; simpl; [reflexivity|].
  destruct (String.eqb k key); [reflexivity|exact IH].
Qed.

Lemma reduce_shape_below (n : nat) :
  forall out v, (height out < n)%nat ->
    reduce_to_scalar_loss out = Ok v -> zero_or_tensor v.
Proof.
  induction n as [|n IH]; intros out v Hh H; [lia|].
  rewrite reduce_unfold_body in H.
  assert (Hattrs : forall c attrs items otherwise,
            (height out = height (VDict c attrs items) \/
             height out = height (VObj c attrs)) ->
            (otherwise = Ok v -> zero_or_tensor v) ->
            reduce_named reduce_to_scalar_loss c attrs otherwise = Ok v ->
            zero_or_tensor v).
  { intros c attrs items otherwise Hout Hother Hn. unfold reduce_named in Hn.
    assert (Hrec : forall k x y, In (k, x) attrs ->
                     reduce_to_scalar_loss x = Ok y -> zero_or_tensor y).
    { intros k x y Hin Hx. apply (IH x y); [|exact Hx].
      pose proof (height_attrs c attrs k x Hin) as H1.
      assert (H2 : (height (VObj c attrs) <= height (VDict c attrs items))%nat)
        by (simpl; lia).
      destruct Hout as [E|E]; lia. }
    destruct (str_in (cls_name c) logits_types).
    - apply (reduce_attr_shape _ _ _ _ _ Hrec Hn).
    - destruct (String.eqb (cls_name c) "SquashedNormal").
      + apply (reduce_attr_shape _ _ _ _ _ Hrec Hn).
      + apply Hother. exact Hn. }
  destruct out as [|x|x|f|d|t|k xs|c attrs items|c attrs];
    cbn [reduce_body] in H; try discriminate.
  - inversion H. right. exists (tensor_sum t). reflexivity.
  - destruct (is_tuple k); [|discriminate].
    bind_inv H as rs Hrs.
    apply (sum_from_shape rs (VInt 0) v); [left; reflexivity| |exact H].
    apply (mapM_Forall reduce_to_scalar_loss zero_or_tensor xs); [|exact Hrs].
    intros x y Hin Hx. apply (IH x y); [|exact Hx].
    pose proof (height_seq k x xs Hin). lia.
  - refine (Hattrs c attrs items _ (or_introl eq_refl) _ H).
    intros Hsum. bind_inv Hsum as rs Hrs.
    apply (sum_from_shape rs (VInt 0) v); [left; reflexivity| |exact Hsum].
    apply (mapM_Forall (fun kv => reduce_to_scalar_loss (snd kv))
             zero_or_tensor items); [|exact Hrs].
    intros [k x] y Hin Hx. apply (IH x y); [|exact Hx].
    pose proof (height_items c attrs items k x Hin). lia.
  - refine (Hattrs c attrs [] _ (or_intror eq_refl) _ H).
    discriminate.
Qed.

Lemma mapM_first_failure {A B : Type} (f : A -> result B) (xs ys : list A)
  (x : A) (e : exn) :
  (forall x', In x' xs -> exists y, f x' = Ok y) ->
  f x = Raise e ->
  mapM f (xs ++ x :: ys) = Raise e.
Proof.
  induction xs as [|x' xs IH]; intros Hxs Hx; simpl.
  - rewrite Hx. reflexivity.
  - destruct (Hxs x' (or_introl eq_refl)) as [y Hy]. rewrite Hy. simpl.
    rewrite IH; [reflexivity| |exact Hx].
    intros x0 Hin. apply Hxs. right. exact Hin.
Qed.

End ReduceShape.

(** X6: what [reduce_to_scalar_loss] returns is a tensor, or the [int] 0:
    the start value of [sum], left as it is where the output holds no
    tensor (an empty tuple or dict, or tuples of them). *)
Theorem reduce_returns_zero_or_tensor {T : Torch} (out v : value)
  (Hret : reduce_to_scalar_loss out = Ok v) :
  zero_or_tensor v.
Proof. apply (reduce_shape_below (S (height out)) out v); [lia|exact Hret]. Qed.

Lemma reduce_returns_zero_or_tensor_witness :
  reduce_to_scalar_loss (VSeq KTuple [VSeq KTuple []; VDict (builtin "dict") [] []])
    = Ok (@VInt IntTorch 0) /\
  zero_or_tensor (@VInt IntTorch 0).
Proof.
  split; [reflexivity|].
  apply (@reduce_returns_zero_or_tensor IntTorch
           (VSeq KTuple [VSeq KTuple []; VDict (builtin "dict") [] []])).
  reflexivity.
Defined.

(** X7: an output of one of the type names [MaskedLMOutput],
    [Seq2SeqLMOutput], [CausalLMOutputWithCrossAttentions] is reduced
    through its [logits] and one named [SquashedNormal] through its [mean],
    whether it is a dict or not; the items of a dict are not read, and a
    missing attribute is an [AttributeError]. *)
Theorem reduce_named_attribute {T : Torch} (c : pyclass)
  (attrs items : list (string * value))
  (Hnamed : reduced_by_attribute c = true) :
  let key := if str_in (cls_name c) logits_types then "logits" else "mean" in
  reduce_to_scalar_loss (VObj c attrs) =
    (v <- getattr (VObj c attrs) key ;; reduce_to_scalar_loss v) /\
  reduce_to_scalar_loss (VDict c attrs items) =
    reduce_to_scalar_loss (VObj c attrs) /\
  (getattr (VObj c attrs) key = Raise AttributeError ->
   reduce_to_scalar_loss (VDict c attrs items) = Raise AttributeError).
Proof.
  intros key.
  assert (E : forall otherwise,
            reduce_named reduce_to_scalar_loss c attrs otherwise =
            (v <- getattr (VObj c attrs) key ;; reduce_to_scalar_loss v)).
  { intros otherwise. unfold reduce_named, key.
    unfold reduced_by_attribute in Hnamed.
    destruct (str_in (cls_name c) logits_types).
    - apply reduce_attr_getattr.
    - simpl in Hnamed. rewrite Hnamed. apply reduce_attr_getattr. }
  rewrite !reduce_unfold_body. cbn [reduce_body]. rewrite !E.
  split; [reflexivity|]. split; [reflexivity|].
  intros ->. reflexivity.
Qed.

Lemma reduce_named_attribute_witness :
  let c := {| cls_module := "sac"; cls_name := "SquashedNormal" |} in
  reduced_by_attribute c = true /\
  reduce_to_scalar_loss (VDict c [("mean", int_tensor 4)] [("x", VNone)])
    = Ok (int_tensor 4) /\
  reduce_to_scalar_loss (VDict c [("loc", int_tensor 4)] [("mean", int_tensor 4)])
    = Raise AttributeError.
Proof.
  intros c. split; [reflexivity|]. split.
  - rewrite (proj1 (proj2 (@reduce_named_attribute IntTorch c
                             [("mean", int_tensor 4)] [("x", VNone)] eq_refl))).
    reflexivity.
  - apply (proj2 (proj2 (@reduce_named_attribute IntTorch c
                           [("loc", int_tensor 4)] [("mean", int_tensor 4)]
                           eq_refl))).
    reflexivity.
Defined.

(** X8: in a tuple the first element that cannot be reduced decides: its
    exception is the exception of the whole call, whatever comes after. *)
Theorem reduce_tuple_first_failure {T : Torch} (k : seq_kind)
  (xs ys : list value) (x : value) (e : exn)
  (Hk : is_tuple k = true)
  (Hxs : forall x', In x' xs -> exists v, reduce_to_scalar_loss x' = Ok v)
  (Hx : reduce_to_scalar_loss x = Raise e) :
  reduce_to_scalar_loss (VSeq k (xs ++ x :: ys)) = Raise e.
Proof.
  rewrite reduce_unfold_body. cbn [reduce_body]. rewrite Hk.
  rewrite (mapM_first_failure reduce_to_scalar_loss xs ys x e Hxs Hx).
  reflexivity.
Qed.

Lemma reduce_tuple_first_failure_witness :
  is_tuple KTuple = true /\
  reduce_to_scalar_loss
    (VSeq KTuple ([int_tensor 2] ++ VSeq KList [int_tensor 3] :: [VNone]))
  = Raise NotImplementedError.
Proof.
  split; [reflexivity|].
  apply (@reduce_tuple_first_failure IntTorch KTuple
           [int_tensor 2] [VNone] (VSeq KList [int_tensor 3])
           NotImplementedError).
  - reflexivity.
  - intros x' [<-|[]]. eexists. reflexivity.
  - reflexivity.
Defined.

(** ** Runs of a [CompileCounter] *)

Lemma filter_length_bound {A : Type} (f : A -> bool) (l : list A) :
  (List.length (filter f l) <= List.length l)%nat.
Proof.
  induction l as [|x l IH]; simpl; [lia|]. destruct (f x); simpl; lia.
Qed.


(** X10: a call never lowers a count: [frame_count] grows by one, and
    [op_count] grows by at most the number of nodes of the graph, and not
    at all for a graph without a node whose [op] contains ["call"]. *)
Theorem CompileCounter_call_bounds (Forward : Type) (self : CompileCounter)
  (gm : GraphModule Forward) :
  let self' := fst (CompileCounter_call self gm) in
  frame_count self' = frame_count self + 1 /\
  op_count self <= op_count self' <=
    op_count self + Z.of_nat (List.length (graph_nodes gm)) /\
  ((forall node, In node (graph_nodes gm) ->
      str_contains "call" (op node) = false) ->
   op_count self' = op_count self).
Proof.
  rewrite CompileCounter_call_eq. cbn [fst frame_count op_count].
  split; [reflexivity|]. split.
  - pose proof (filter_length_bound
                  (fun node => str_contains "call" (op node)) (graph_nodes gm)).
    unfold call_nodes. lia.
  - intros Hnone. unfold call_nodes.
    assert (E : filter (fun node => str_contains "call" (op node))
                  (graph_nodes gm) = []).
    { induction (graph_nodes gm) as [|node nodes IH]; simpl; [reflexivity|].
      rewrite (Hnone node (or_introl eq_refl)).
      apply IH. intros node' Hin. apply Hnone. right. exact Hin. }
    rewrite E. simpl. lia.
Qed.

(** ** More on [format_speedup] *)

Section FormatSpeedup.

Lemma float_gt_nan_l (x : float) : float_gt S754_nan x = false.
Proof. destruct x; reflexivity. Qed.

Lemma float_gt_nan_r (x : float) : float_gt x S754_nan = false.
Proof. destruct x; reflexivity. Qed.

(** A correct run is reported as the speedup to three decimals, an [x] and
    a blank, and the verdict. *)
Lemma format_speedup_correct (speedup pvalue pvalue_threshold : float) :
  exists verdict,
    format_speedup speedup pvalue true pvalue_threshold =
    format_fixed 3 speedup ++ "x " ++ verdict.
Proof.
  unfold format_speedup. simpl negb. cbv iota.
  destruct (float_gt pvalue pvalue_threshold).
  - exists "SAME". reflexivity.
  - exists ("p=" ++ format_fixed 2 pvalue). reflexivity.
Qed.

End FormatSpeedup.

(** X11: the result is ["ERROR"] only for a run that is not correct: no
    speedup and no p-value make a correct run read ["ERROR"]. *)
Theorem format_speedup_ERROR (speedup pvalue pvalue_threshold : float)
  (is_correct : bool) :
  format_speedup speedup pvalue is_correct pvalue_threshold = "ERROR" <->
  is_correct = false.
Proof.
  split.
  - destruct is_correct; [|reflexivity]. intros H. exfalso.
    destruct (format_speedup_correct speedup pvalue pvalue_threshold)
      as [verdict E].
    rewrite H in E.
    assert (C : str_contains "x " "ERROR" = true).
    { apply str_contains_spec.
      exists (format_fixed 3 speedup), verdict. exact E. }
    vm_compute in C. discriminate.
  - intros ->. reflexivity.
Qed.

(** X12: a p-value that is not a number is never reported as ["SAME"]: the
    result reads [p=nan]; and under a threshold that is not a number no
    p-value is. *)
Theorem format_speedup_nan (speedup pvalue pvalue_threshold : float) :
  format_speedup speedup S754_nan true pvalue_threshold =
    format_fixed 3 speedup ++ "x p=nan" /\
  format_speedup speedup pvalue true S754_nan =
    format_fixed 3 speedup ++ "x p=" ++ format_fixed 2 pvalue.
Proof.
  unfold format_speedup. simpl negb. cbv iota.
  rewrite float_gt_nan_l, float_gt_nan_r. split; reflexivity.
Qed.

(** ** More on [debug_insert_nops] *)

(** X13: [debug_insert_nops] returns [None] for generators and for nothing
    else: on any other frame it returns a [GuardedCode] or raises. *)
Theorem debug_insert_nops_None {B : Bytecode} (frame : Frame) (cache_size : Z) :
  debug_insert_nops frame cache_size = Ok None <->
  is_generator (f_code frame) = true.
Proof.
  unfold debug_insert_nops. split.
  - destruct (is_generator (f_code frame)); [reflexivity|].
    intros H. bind_inv H as u Hu. bind_inv H as code Hc. discriminate.
  - intros ->. reflexivity.
Qed.

(** X14: [insert_nops] puts two [NOP]s in front and moves every
    instruction two places up, in order; the code options are left as they
    are. *)
Theorem insert_nops_shift {B : Bytecode} (instructions : list Instruction)
  (code_options : CodeOptions) (n : nat) :
  let '(instructions', code_options') := insert_nops instructions code_options in
  nth_error instructions' 0 = Some (create_instruction "NOP") /\
  nth_error instructions' 1 = Some (create_instruction "NOP") /\
  nth_error instructions' (n + 2) = nth_error instructions n /\
  List.length instructions' = (List.length instructions + 2)%nat /\
  code_options' = code_options.
Proof.
  unfold insert_nops, insert0.
  split; [reflexivity|]. split; [reflexivity|]. split.
  - replace (n + 2)%nat with (S (S n)) by lia. reflexivity.
  - split; [simpl; lia|reflexivity].
Qed.

(** ** Assignment to a dict *)

Section DictSet.

Context {T : Torch}.

Lemma lookup_dict_set_same (items : list (string * value)) (key : string)
  (v : value) :
  lookup key (dict_set items key v) = Some v.
Proof.
  induction items as [|[k x] items IH]; simpl.
  - rewrite String.eqb_refl. reflexivity.
  - destruct (String.eqb k key) eqn:E; simpl; rewrite E; [reflexivity|exact IH].
Qed.

Lemma lookup_dict_set_other (items : list (string * value)) (key key' : string)
  (v : value) :
  key' <> key -> lookup key' (dict_set items key v) = lookup key' items.
Proof.
  intros NE. induction items as [|[k x] items IH]; simpl.
  - destruct (String.eqb_spec key key'); [congruence|reflexivity].
  - destruct (String.eqb_spec k key) as [->|NK]; simpl.
    + destruct (String.eqb_spec key key'); [congruence|reflexivity].
    + rewrite IH. reflexivity.
Qed.

Lemma keys_dict_set (items : list (string * value)) (key : string) (v : value) :
  keys (dict_set items key v) =
  if str_in key (keys items) then keys items else (keys items ++ [key])%list.
Proof.
  induction items as [|[k x] items IH]; simpl; [reflexivity|].
  unfold str_in in *. simpl.
  rewrite (String.eqb_sym key k).
  destruct (String.eqb_spec k key) as [->|NK]; simpl; [reflexivity|].
  rewrite IH. destruct (existsb (String.eqb key) (keys items)); reflexivity.
Qed.

Lemma in_keys_dict_set (items : list (string * value)) (key k : string)
  (v : value) :
  In k (keys (dict_set items key v)) <-> k = key \/ In k (keys items).
Proof.
  rewrite keys_dict_set. destruct (str_in key (keys items)) eqn:E.
  - apply str_in_In in E. split; [tauto|]. intros [->|H]; assumption.
  - rewrite in_app_iff. simpl. split.
    + intros [H|[H|[]]]; [right; exact H|left; symmetry; exact H].
    + intros [->|H]; [right; left; reflexivity|left; exact H].
Qed.

Lemma NoDup_dict_set (items : list (string * value)) (key : string) (v : value) :
  NoDup (keys items) -> NoDup (keys (dict_set items key v)).
Proof.
  intros ND. rewrite keys_dict_set.
  destruct (str_in key (keys items)) eqn:E; [exact ND|].
  assert (Hnot : ~ In key (keys items)).
  { intros Hin. apply str_in_In in Hin. congruence. }
  clear E. induction (keys items) as [|k ks IH]; simpl.
  - constructor; [intros []|constructor].
  - inversion ND as [|? ? Hk ND']; subst. constructor.
    + rewrite in_app_iff. simpl. intros [H|[H|[]]]; [contradiction|].
      apply Hnot. left. symmetry. exact H.
    + apply IH; [exact ND'|]. intros H. apply Hnot. right. exact H.
Qed.

End DictSet.

(** X15: after [d[key] = v] the dict holds [v] under [key], every other
    key holds what it held, no key is lost and [key] is the only one that
    can be new, and the keys are still apart. *)
Theorem dict_set_lookup {T : Torch} (items : list (string * value))
  (key : string) (v : value) :
  lookup key (dict_set items key v) = Some v /\
  (forall key', key' <> key ->
     lookup key' (dict_set items key v) = lookup key' items) /\
  (forall k, In k (keys (dict_set items key v)) <-> k = key \/ In k (keys items)) /\
  (NoDup (keys items) -> NoDup (keys (dict_set items key v))).
Proof.
  split; [apply lookup_dict_set_same|].
  split; [intros key'; apply lookup_dict_set_other|].
  split; [intros k; apply in_keys_dict_set|apply NoDup_dict_set].
Qed.

Lemma dict_set_lookup_witness :
  let d := [("w.grad", @VNone IntTorch); ("b.grad", VNone)] in
  "b.grad" <> "w.grad" /\ NoDup (keys d) /\
  lookup "b.grad" (dict_set d "w.grad" (VInt 1)) = lookup "b.grad" d /\
  NoDup (keys (dict_set d "w.grad" (VInt 1))).
Proof.
  intros d.
  assert (NE : "b.grad" <> "w.grad") by discriminate.
  assert (ND : NoDup (keys d)).
  { simpl. repeat constructor; simpl; intuition discriminate. }
  split; [exact NE|]. split; [exact ND|]. split.
  - apply (proj1 (proj2 (@dict_set_lookup IntTorch d "w.grad" (VInt 1)))).
    exact NE.
  - apply (proj2 (proj2 (proj2 (@dict_set_lookup IntTorch d "w.grad" (VInt 1))))).
    exact ND.
Defined.

(** ** [collect_results] *)

Section CollectResultsProperties.

Context {T : Torch} {G : TorchGrad T}.

Lemma string_length_app (s1 s2 : string) :
  String.length (s1 ++ s2) = (String.length s1 + String.length s2)%nat.
Proof. induction s1 as [|c s1 IH]; simpl; [reflexivity|]. rewrite IH. reflexivity. Qed.

Lemma string_app_inv_tail (s1 s2 t : string) : s1 ++ t = s2 ++ t -> s1 = s2.
Proof.
  revert s2. induction s1 as [|c s1 IH]; intros [|c2 s2] H; simpl in H.
  - reflexivity.
  - apply (f_equal String.length) in H. simpl in H.
    rewrite string_length_app in H. lia.
  - apply (f_equal String.length) in H. simpl in H.
    rewrite string_length_app in H. lia.
  - inversion H. f_equal. apply IH. assumption.
Qed.

(** The gradient of a tensor is [None] or a tensor, and [clone_me] takes
    both. *)
Lemma clone_grad_tensor (t : Tensor) :
  (g <- grad_of (VTensor t) ;; clone_me g) = Ok (grad_clone t).
Proof. unfold grad_clone. simpl. destruct (tensor_grad t); reflexivity. Qed.

Lemma grad_clone_shape (t : Tensor) : none_or_tensor (grad_clone t).
Proof.
  unfold grad_clone. destruct (tensor_grad t) as [g|].
  - right. eexists. reflexivity.
  - left. reflexivity.
Qed.

Lemma clone_me_shape (x c : value) : clone_me x = Ok c -> none_or_tensor c.
Proof.
  destruct x; simpl; intros H; inversion H.
  - left. reflexivity.
  - right. eexists. reflexivity.
Qed.

(** The loop over the parameters does not raise, and leaves the dict its
    assignments build. *)
Lemma collect_grads_run (model : list (string * Tensor)) :
  forall grads,
    collect_grads model grads =
    Ok (fold_left (fun d np => dict_set d (fst np ++ ".grad") (grad_clone (snd np)))
                  model grads).
Proof.
  induction model as [|[name param] model IH]; intros grads; [reflexivity|].
  cbn [collect_grads fold_left fst snd].
  pose proof (clone_grad_tensor param) as E.
  destruct (grad_of (VTensor param)) as [g|e]; simpl in E |- *; [|discriminate].
  rewrite E. simpl. apply IH.
Qed.

Lemma grads_keys (model : list (string * Tensor)) :
  forall grads k,
    In k (keys (fold_left
                  (fun d np => dict_set d (fst np ++ ".grad") (grad_clone (snd np)))
                  model grads)) <->
    In k (keys grads) \/ exists name, In name (map fst model) /\ k = name ++ ".grad".
Proof.
  induction model as [|[name param] model IH]; intros grads k; simpl.
  - split; [tauto|]. intros [H|[name [[] _]]]. exact H.
  - rewrite IH, in_keys_dict_set. split.
    + intros [[->|H]|[n [Hn ->]]].
      * right. exists name. split; [left; reflexivity|reflexivity].
      * left. exact H.
      * right. exists n. split; [right; exact Hn|reflexivity].
    + intros [H|[n [[<-|Hn] ->]]].
      * left. right. exact H.
      * left. left. reflexivity.
      * right. exists n. split; [exact Hn|reflexivity].
Qed.

Lemma grads_NoDup (model : list (string * Tensor)) :
  forall grads,
    NoDup (keys grads) ->
    NoDup (keys (fold_left
                   (fun d np => dict_set d (fst np ++ ".grad") (grad_clone (snd np)))
                   model grads)).
Proof.
  induction model as [|[name param] model IH]; intros grads ND; [exact ND|].
  simpl. apply IH. apply NoDup_dict_set. exact ND.
Qed.

Lemma grads_lookup_kept (model : list (string * Tensor)) :
  forall grads k,
    ~ In k (map (fun np => fst np ++ ".grad") model) ->
    lookup k (fold_left
                (fun d np => dict_set d (fst np ++ ".grad") (grad_clone (snd np)))
                model grads) = lookup k grads.
Proof.
  induction model as [|[name param] model IH]; intros grads k Hk; [reflexivity|].
  simpl in *. rewrite IH by tauto.
  apply lookup_dict_set_other. intros E. apply Hk. left. symmetry. exact E.
Qed.

Lemma grads_lookup (model : list (string * Tensor)) :
  forall grads name param,
    NoDup (map fst model) -> In (name, param) model ->
    lookup (name ++ ".grad")
      (fold_left (fun d np => dict_set d (fst np ++ ".grad") (grad_clone (snd np)))
                 model grads) = Some (grad_clone param).
Proof.
  induction model as [|[n p] model IH]; intros grads name param ND Hin;
    [contradiction|].
  simpl in ND. inversion ND as [|? ? Hn ND']; subst.
  destruct Hin as [E|Hin].
  - inversion E; subst. simpl.
    rewrite grads_lookup_kept; [apply lookup_dict_set_same|].
    intros H. apply in_map_iff in H. destruct H as [[n' p'] [E' Hin']].
    simpl in E'. apply string_app_inv_tail in E'. subst n'.
    apply Hn. apply in_map_iff. exists (name, p'). split; [reflexivity|exact Hin'].
  - simpl. apply IH; assumption.
Qed.

(** The two loops over the example inputs only append, one value per
    input, and what they append is [None] or a tensor. *)
Lemma collect_list_appends (example : list value) :
  forall results out,
    collect_list example results = Ok out ->
    exists added, out = (results ++ added)%list /\
                  List.length added = List.length example /\
                  Forall none_or_tensor added.
Proof.
  induction example as [|inp rest IH]; intros results out H; simpl in H.
  - inversion H. exists []. rewrite app_nil_r. repeat split. constructor.
  - bind_inv H as g Hg. bind_inv H as c Hc.
    destruct (IH _ _ H) as [added [-> [Hlen Hall]]].
    exists (c :: added). rewrite <- app_assoc. simpl. repeat split.
    + rewrite Hlen. reflexivity.
    + constructor; [apply (clone_me_shape g c Hc)|exact Hall].
Qed.

Lemma collect_examples_appends (example_inputs : list value) :
  forall results out,
    collect_examples example_inputs results = Ok out ->
    exists added, out = (results ++ added)%list /\
                  List.length added = list_sum (map example_size example_inputs) /\
                  Forall none_or_tensor added.
Proof.
  induction example_inputs as [|example rest IH]; intros results out H;
    simpl in H.
  - inversion H. exists []. rewrite app_nil_r. repeat split. constructor.
  - bind_inv H as mid Hmid.
    assert (Hex : exists added, mid = (results ++ added)%list /\
                    List.length added = example_size example /\
                    Forall none_or_tensor added).
    { assert (Hone : (g <- grad_of example ;; c <- clone_me g ;;
                      Ok (results ++ [c])%list) = Ok mid ->
                     exists added, mid = (results ++ added)%list /\
                       List.length added = 1%nat /\ Forall none_or_tensor added).
      { intros H1. bind_inv H1 as g Hg. bind_inv H1 as c Hc. inversion H1.
        exists [c]. repeat split.
        constructor; [apply (clone_me_shape g c Hc)|constructor]. }
      destruct example as [| | | | | |k inps| |]; try (apply Hone; exact Hmid).
      destruct k; try (apply Hone; exact Hmid).
      apply collect_list_appends. exact Hmid. }
    destruct Hex as [added1 [-> [Hlen1 Hall1]]].
    destruct (IH _ _ H) as [added2 [-> [Hlen2 Hall2]]].
    exists (added1 ++ added2)%list. rewrite <- app_assoc. repeat split.
    + rewrite length_app, Hlen1, Hlen2. reflexivity.
    + apply Forall_app. split; assumption.
Qed.

Lemma collect_list_tensors (example : list value) :
  forallb (fun inp => match inp with VTensor _ => true | _ => false end) example
    = true ->
  forall results, exists out, collect_list example results = Ok out.
Proof.
  induction example as [|inp rest IH]; intros Hall results; simpl.
  - eexists. reflexivity.
  - simpl in Hall. apply andb_true_iff in Hall. destruct Hall as [Hinp Hrest].
    destruct inp; try discriminate.
    pose proof (clone_grad_tensor t) as E.
    destruct (grad_of (VTensor t)) as [g|e]; simpl in E |- *; [|discriminate].
    rewrite E. simpl. apply IH. exact Hrest.
Qed.

Lemma collect_examples_tensors (example_inputs : list value) :
  forallb tensor_example example_inputs = true ->
  forall results, exists out, collect_examples example_inputs results = Ok out.
Proof.
  induction example_inputs as [|example rest IH]; intros Hall results.
  - eexists. reflexivity.
  - simpl in Hall. apply andb_true_iff in Hall. destruct Hall as [Hex Hrest].
    cbn [collect_examples].
    assert (Hmid : exists mid,
              match example with
              | VSeq KList inps => collect_list inps results
              | _ => g <- grad_of example ;; c <- clone_me g ;;
                     Ok (results ++ [c])%list
              end = Ok mid).
    { destruct example as [| | | | |t|k inps| |]; try discriminate.
      - pose proof (clone_grad_tensor t) as E.
        destruct (grad_of (VTensor t)) as [g|e]; simpl in E |- *; [|discriminate].
        rewrite E. simpl. eexists. reflexivity.
      - destruct k; try discriminate.
        apply collect_list_tensors. exact Hex. }
    destruct Hmid as [mid ->]. simpl. apply IH. exact Hrest.
Qed.

End CollectResultsProperties.

(** X16: what [collect_results] returns starts with the prediction, the
    loss and the dict of gradients, and goes on with one entry for each
    example input, or for each element of an example input that is a list;
    each of these entries is [None] or a tensor. *)
Theorem collect_results_shape {T : Torch} {G : TorchGrad T}
  (model : list (string * Tensor)) (prediction loss : value)
  (example_inputs results : list value)
  (Hret : collect_results model prediction loss example_inputs = Ok results) :
  exists grads added,
    results = prediction :: loss :: VDict (builtin "dict") [] grads :: added /\
    List.length added = list_sum (map example_size example_inputs) /\
    Forall none_or_tensor added.
Proof.
  unfold collect_results in Hret. bind_inv Hret as grads Hgrads.
  apply collect_examples_appends in Hret.
  destruct Hret as [added [-> [Hlen Hall]]].
  exists grads, added. repeat split; assumption.
Qed.

Lemma collect_results_shape_witness :
  let model := [("w", 3); ("b", -1)] in
  let examples := [int_tensor 2; VSeq KList [int_tensor (-5); int_tensor 6]] in
  let results :=
    [VNone; int_tensor 9;
     VDict (builtin "dict") [] [("w.grad", int_tensor 1); ("b.grad", VNone)];
     int_tensor 1; VNone; int_tensor 1] in
  @collect_results IntTorch IntTorchGrad model VNone (int_tensor 9) examples
    = Ok results /\
  exists grads added,
    results = VNone :: int_tensor 9 :: VDict (builtin "dict") [] grads :: added /\
    List.length added = list_sum (map example_size examples) /\
    Forall none_or_tensor added.
Proof.
  intros model examples results. split; [reflexivity|].
  apply (@collect_results_shape IntTorch IntTorchGrad model VNone (int_tensor 9)
           examples results).
  reflexivity.
Defined.

(** X17: the third result is a dict with one key [name + ".grad"] for each
    parameter name and no other key; and where the names are apart, the
    key of a parameter holds the clone of its gradient, [None] for a
    parameter without gradient. *)
Theorem collect_results_grads {T : Torch} {G : TorchGrad T}
  (model : list (string * Tensor)) (prediction loss : value)
  (example_inputs results : list value)
  (Hret : collect_results model prediction loss example_inputs = Ok results) :
  exists grads,
    nth_error results 2 = Some (VDict (builtin "dict") [] grads) /\
    NoDup (keys grads) /\
    (forall k, In k (keys grads) <->
               exists name, In name (map fst model) /\ k = name ++ ".grad") /\
    (NoDup (map fst model) ->
     forall name param, In (name, param) model ->
       lookup (name ++ ".grad") grads = Some (grad_clone param)).
Proof.
  unfold collect_results in Hret. bind_inv Hret as grads Hgrads.
  apply collect_examples_appends in Hret.
  destruct Hret as [added [-> _]].
  rewrite collect_grads_run in Hgrads. inversion Hgrads as [E]. clear Hgrads.
  eexists. split; [reflexivity|]. split.
  - apply grads_NoDup. constructor.
  - split.
    + intros k. rewrite grads_keys. simpl. tauto.
    + intros ND name param Hin. apply grads_lookup; assumption.
Qed.

Lemma collect_results_grads_witness :
  let model := [("w", 3); ("b", -1)] in
  let results :=
    [VNone; VNone;
     VDict (builtin "dict") [] [("w.grad", int_tensor 1); ("b.grad", VNone)]] in
  @collect_results IntTorch IntTorchGrad model VNone VNone [] = Ok results /\
  NoDup (map fst model) /\
  exists grads,
    nth_error results 2 = Some (VDict (builtin "dict") [] grads) /\
    lookup "b.grad" grads = Some (@grad_clone IntTorch IntTorchGrad (-1)).
Proof.
  intros model results. split; [reflexivity|].
  assert (ND : NoDup (map fst model)).
  { simpl. repeat constructor; simpl; intuition discriminate. }
  split; [exact ND|].
  destruct (@collect_results_grads IntTorch IntTorchGrad model VNone VNone []
              results eq_refl) as [grads [Hnth [_ [_ Hlook]]]].
  exists grads. split; [exact Hnth|].
  apply (Hlook ND "b" (-1)). right. left. reflexivity.
Defined.

(** X18: with example inputs that are tensors or lists of tensors
    [collect_results] returns: a parameter or an input without gradient is
    no error, its entry is [None]. *)
Theorem collect_results_returns {T : Torch} {G : TorchGrad T}
  (model : list (string * Tensor)) (prediction loss : value)
  (example_inputs : list value)
  (Hexamples : forallb tensor_example example_inputs = true) :
  exists results,
    collect_results model prediction loss example_inputs = Ok results.
Proof.
  unfold collect_results. rewrite collect_grads_run. simpl.
  apply collect_examples_tensors. exact Hexamples.
Qed.

Lemma collect_results_returns_witness :
  forallb tensor_example [int_tensor (-2); VSeq KList [int_tensor 6]] = true /\
  exists results,
    @collect_results IntTorch IntTorchGrad [("w", -3)] VNone VNone
      [int_tensor (-2); VSeq KList [int_tensor 6]] = Ok results.
Proof.
  split; [reflexivity|].
  apply (@collect_results_returns IntTorch IntTorchGrad). reflexivity.
Defined.

(** X19: only a [list] among the example inputs is walked: a tuple (or a
    Size or a ParameterList) is asked for its own [grad], and the call
    ends with an [AttributeError] there. *)
Theorem collect_results_tuple_example {T : Torch} {G : TorchGrad T}
  (model : list (string * Tensor)) (prediction loss : value)
  (before after : list value) (k : seq_kind) (inps : list value)
  (Hbefore : forallb tensor_example before = true)
  (Hk : k <> KList) :
  collect_results model prediction loss (before ++ VSeq k inps :: after)
    = Raise AttributeError.
Proof.
  unfold collect_results. rewrite collect_grads_run. simpl.
  generalize [prediction; loss;
              VDict (builtin "dict") []
                (fold_left
                   (fun d np => dict_set d (fst np ++ ".grad") (grad_clone (snd np)))
                   model [])].
  induction before as [|example rest IH]; intros results.
  - simpl. destruct k; [contradiction| | |]; reflexivity.
  - simpl in Hbefore. apply andb_true_iff in Hbefore.
    destruct Hbefore as [Hex Hrest].
    destruct (collect_examples_tensors [example]
                ltac:(simpl; rewrite Hex; reflexivity) results) as [mid Hmid].
    cbn [collect_examples] in Hmid. bind_inv Hmid as mid' Hstep.
    cbn [app collect_examples]. rewrite Hstep. simpl.
    apply IH. exact Hrest.
Qed.

Lemma collect_results_tuple_example_witness :
  forallb tensor_example [int_tensor 2] = true /\ KTuple <> KList /\
  @collect_results IntTorch IntTorchGrad [] VNone VNone
    ([int_tensor 2] ++ VSeq KTuple [int_tensor 3] :: []) = Raise AttributeError.
Proof.
  split; [reflexivity|]. split; [discriminate|].
  apply (@collect_results_tuple_example IntTorch IntTorchGrad).
  - reflexivity.
  - discriminate.
Defined.

(** ** [TestCase] *)

(** X20: [setUpClass] turns [config.debug] on, and [tearDownClass] puts it
    back to what it was before [setUpClass], whatever the tests did to it
    in between, as long as [torchdynamo.reset()] leaves the configuration
    alone; without a [setUpClass] before it, [tearDownClass] raises an
    [AttributeError]. *)
Theorem TestCase_debug_restored (Caches : Type)
  (reset : Dynamo Caches -> Dynamo Caches)
  (Hreset : forall td, config_debug (reset td) = config_debug td)
  (cls : TestCase) (before between : Dynamo Caches) :
  let '(cls', during) := setUpClass reset cls before in
  config_debug during = true /\
  (exists after, tearDownClass reset cls' between = Ok after /\
                 config_debug after = config_debug before) /\
  tearDownClass reset {| prior_debug := None |} between = Raise AttributeError.
Proof.
  unfold setUpClass, tearDownClass. cbn [prior_debug].
  split; [reflexivity|]. split; [|reflexivity].
  eexists. split; [reflexivity|]. simpl. apply Hreset.
Qed.

Lemma TestCase_debug_restored_witness :
  let reset := fun td : Dynamo (list nat) =>
    {| caches := []; config_debug := config_debug td; counters := counters td |} in
  let before := {| caches := [1%nat]; config_debug := false; counters := [] |} in
  (forall td, config_debug (reset td) = config_debug td) /\
  let '(cls', during) := setUpClass reset {| prior_debug := None |} before in
  config_debug during = true /\
  (exists after, tearDownClass reset cls' (setUp during) = Ok after /\
                 config_debug after = config_debug before) /\
  tearDownClass reset {| prior_debug := None |} (setUp during)
    = Raise AttributeError.
Proof.
  intros reset before.
  assert (Hreset : forall td, config_debug (reset td) = config_debug td)
    by reflexivity.
  split; [exact Hreset|].
  exact (TestCase_debug_restored (list nat) reset Hreset
           {| prior_debug := None |} before (setUp (snd (setUpClass reset
           {| prior_debug := None |} before)))).
Defined.

(** ** [debug_dir] *)

(** X21: [debug_dir] returns the same path on every call, changes nothing
    when the directory is there, and, where [os.mkdir] makes what it is
    asked for, a call after a call that returned changes nothing. *)
Theorem debug_dir_idempotent {F : FileSystem} (module_dir : string)
  (Hmkdir : forall files path files',
      mkdir files path = Some files' -> path_exists files' path = true)
  (files files' : Files) (path : string)
  (Hret : debug_dir module_dir files = Some (files', path)) :
  path = path_join module_dir "../debug" /\
  path_exists files' path = true /\
  debug_dir module_dir files' = Some (files', path).
Proof.
  unfold debug_dir in *.
  destruct (path_exists files (path_join module_dir "../debug")) eqn:E;
    simpl in Hret.
  - inversion Hret; subst. rewrite E. simpl. repeat split.
  - destruct (mkdir files (path_join module_dir "../debug")) as [made|] eqn:M;
      [|discriminate].
    inversion Hret; subst.
    rewrite (Hmkdir _ _ _ M). simpl. repeat split.
Qed.

Lemma debug_dir_idempotent_witness :
  (forall files path files',
      @mkdir ListFiles files path = Some files' ->
      @path_exists ListFiles files' path = true) /\
  @debug_dir ListFiles "/repo/torchdynamo" ["/repo/torchdynamo"]
    = Some (["/repo/torchdynamo/../debug"; "/repo/torchdynamo"],
            "/repo/torchdynamo/../debug") /\
  @debug_dir ListFiles "/repo/torchdynamo"
     ["/repo/torchdynamo/../debug"; "/repo/torchdynamo"]
    = Some (["/repo/torchdynamo/../debug"; "/repo/torchdynamo"],
            "/repo/torchdynamo/../debug").
Proof.
  assert (Hmkdir : forall files path files',
             @mkdir ListFiles files path = Some files' ->
             @path_exists ListFiles files' path = true).
  { intros files path files'. simpl.
    destruct (str_in path files); [discriminate|].
    intros H. inversion H. unfold str_in. simpl.
    rewrite String.eqb_refl. reflexivity. }
  split; [exact Hmkdir|]. split; [reflexivity|].
  apply (@debug_dir_idempotent ListFiles "/repo/torchdynamo" Hmkdir
           ["/repo/torchdynamo"]).
  reflexivity.
Defined.

Lemma CompileCounter_call_bounds_witness :
  let gm := {| graph_nodes := [ {| node_name := "x"; op := "placeholder" |};
                                {| node_name := "out"; op := "output" |} ];
               forward := tt |} in
  (forall node, In node (graph_nodes gm) ->
     str_contains "call" (op node) = false) /\
  op_count (fst (CompileCounter_call CompileCounter_init gm)) = 0.
Proof.
  intros gm.
  assert (Hnone : forall node, In node (graph_nodes gm) ->
                    str_contains "call" (op node) = false).
  { intros node [<-|[<-|[]]]; reflexivity. }
  split; [exact Hnone|].
  apply (proj2 (proj2 (CompileCounter_call_bounds unit CompileCounter_init gm))).
  exact Hnone.
Defined.
